(** * Version comparison and package inspection (assistant-prompts/tools.py)

    A shallow embedding of the two Python functions of [tools.py],
    [version_ge] and [check_package_version], together with the parts of
    the Python built-ins they rely on ([str.split], [str.replace], [int],
    [zip], list repetition, exceptions and the dict display).

    Python strings are modelled by [string]; a character stands for the
    code point of the same number, so the model covers the strings whose
    code points are below 256 (every PEP 440 version string is ASCII). *)

From Stdlib Require Import ZArith Lia Bool Ascii String.
From stdpp Require Import gmap strings list fin_maps.

Local Open Scope Z_scope.

(** ** Exceptions and results *)

(** The exception classes that can leave the two functions.
    [ModuleNotFoundError] and [PackageNotFoundError] are subclasses of
    [ImportError]; [OtherException] stands for any class outside that
    family (a module may raise anything while it is initialised). *)
Inductive exn : Type :=
| ValueError
| ImportError
| ModuleNotFoundError
| PackageNotFoundError
| OtherException (name : string).

(** [isinstance(e, ImportError)]: what [except ImportError] catches. *)
Definition is_ImportError (e : exn) : bool :=
  match e with
  | ImportError | ModuleNotFoundError | PackageNotFoundError => true
  | ValueError | OtherException _ => false
  end.

(** A computation either returns a value or raises. *)
Inductive result (A : Type) : Type :=
| Return (a : A)
| Raise (e : exn).
Arguments Return {A} a.
Arguments Raise {A} e.

Definition bind {A B : Type} (m : result A) (k : A -> result B) : result B :=
  match m with
  | Return a => k a
  | Raise e => Raise e
  end.

Declare Scope py_scope.
Delimit Scope py_scope with py.
Notation "'do' x <- m ; k" := (bind m (fun x => k))
  (at level 10, x name, m at level 100, k at level 200) : py_scope.
Local Open Scope py_scope.

(** A list comprehension [[f(x) for x in xs]] with a fallible [f]:
    elements are converted left to right, the first failure leaves. *)
Fixpoint comprehension {A B : Type} (f : A -> result B) (xs : list A)
  : result (list B) :=
  match xs with
  | [] => Return []
  | x :: xs' =>
      do y <- f x;
      do ys <- comprehension f xs';
      Return (y :: ys)
  end.

(** ** String built-ins *)

(** [s.split(sep)] for a one-character separator: the pieces between the
    occurrences of [sep], never an empty list. *)
Fixpoint split (sep : ascii) (s : string) : list string :=
  match s with
  | EmptyString => [EmptyString]
  | String c s' =>
      if Ascii.eqb c sep then EmptyString :: split sep s'
      else match split sep s' with
           | w :: ws => String c w :: ws
           | [] => [String c EmptyString]
           end
  end.

(** [xs[0]]: [split] never returns an empty list (see [split_nonempty]),
    so the default is never used. *)
Definition item0 (xs : list string) : string :=
  match xs with
  | x :: _ => x
  | [] => EmptyString
  end.

(** [s.startswith(p)]. *)
Fixpoint startswith (p s : string) : bool :=
  match p, s with
  | EmptyString, _ => true
  | String a p', String b s' => Ascii.eqb a b && startswith p' s'
  | String _ _, EmptyString => false
  end.

(** [s.replace(old, new)] for a non-empty [old]: the string is scanned
    from the left; where [old] starts, [new] is emitted and the scan
    resumes after the match, otherwise the character is copied.
    [skip] counts the characters of the current match still to pass. *)
Fixpoint replace_from (old new : string) (skip : nat) (s : string) : string :=
  match s with
  | EmptyString => EmptyString
  | String c s' =>
      match skip with
      | S k => replace_from old new k s'
      | O =>
          if startswith old s
          then new +:+ replace_from old new (String.length old - 1) s'
          else String c (replace_from old new 0 s')
      end
  end.

Definition replace (old new s : string) : string := replace_from old new 0 s.

(** ** The built-in [int] on strings *)

(** White space for [int]: the ASCII blanks and, above 127, the two
    Unicode white-space code points below 256 (NEL and NBSP). *)
Definition is_space (c : ascii) : bool :=
  let n := N_of_ascii c in
  ((9 <=? n) && (n <=? 13) || (n =? 32) || (n =? 133) || (n =? 160))%N.

Definition digit_value (c : ascii) : option Z :=
  let n := Z.of_N (N_of_ascii c) in
  if (48 <=? n) && (n <=? 57) then Some (n - 48) else None.

Fixpoint lstrip (s : string) : string :=
  match s with
  | String c s' => if is_space c then lstrip s' else s
  | EmptyString => EmptyString
  end.

Fixpoint all_space (s : string) : bool :=
  match s with
  | String c s' => is_space c && all_space s'
  | EmptyString => true
  end.

(** The run of digits after a first digit: digits, each optionally
    preceded by one underscore.  [acc] is the value read so far and [n]
    the number of digits read; the result carries the rest of the
    string.  [None]: an underscore not followed by a digit. *)
Fixpoint scan_digits (acc : Z) (n : nat) (s : string)
  : option (Z * nat * string) :=
  match s with
  | EmptyString => Some (acc, n, EmptyString)
  | String c s' =>
      match digit_value c with
      | Some d => scan_digits (10 * acc + d) (S n) s'
      | None =>
          if Ascii.eqb c "_" then
            match s' with
            | String c' s'' =>
                match digit_value c' with
                | Some d => scan_digits (10 * acc + d) (S n) s''
                | None => None
                end
            | EmptyString => None
            end
          else Some (acc, n, s)
      end
  end.

(** An optional sign in front of the digits. *)
Definition split_sign (s : string) : Z * string :=
  match s with
  | String c r =>
      if Ascii.eqb c "+" then (1, r)
      else if Ascii.eqb c "-" then (-1, r)
      else (1, s)
  | EmptyString => (1, s)
  end.

(** A first digit, the digits after it and trailing blanks up to the
    end: the value and the number of digits. *)
Definition scan_body (s : string) : option (Z * nat) :=
  match s with
  | String c r =>
      match digit_value c with
      | Some d =>
          match scan_digits d 1 r with
          | Some (v, n, rest) =>
              if all_space rest then Some (v, n) else None
          | None => None
          end
      | None => None
      end
  | EmptyString => None
  end.

(** Leading blanks, sign and body of a literal. *)
Definition scan_int (s : string) : option (Z * nat) :=
  let '(sign, body) := split_sign (lstrip s) in
  match scan_body body with
  | Some (v, n) => Some (sign * v, n)
  | None => None
  end.

(** The interpreter refuses decimal strings of more than
    [int_max_str_digits] digits ([sys.set_int_max_str_digits], 4300
    unless configured; 0 disables the guard); the guard is consulted only
    above 640 digits. *)
Definition str_digits_check_threshold : nat := 640.

Definition exceeds_limit (int_max_str_digits n : nat) : bool :=
  (str_digits_check_threshold <? n)%nat
  && (0 <? int_max_str_digits)%nat
  && (int_max_str_digits <? n)%nat.

Section Interpreter.

(** The interpreter's limit on the digits of a decimal string. *)
Variable int_max_str_digits : nat.

(** [int(s)]: [ValueError] for anything but a decimal literal. *)
Definition py_int (s : string) : result Z :=
  match scan_int s with
  | Some (v, n) =>
      if exceeds_limit int_max_str_digits n then Raise ValueError
      else Return v
  | None => Raise ValueError
  end.

(** ** [version_ge] *)

(** The nested function [split_version]. *)
Definition split_version (v : string) : list string :=
  let v := replace "dev" "." (replace ".dev" "." v) in
  let parts := split "." v in
  parts.

(** The [for] loop over [zip(parts1, parts2)] and the final [return]. *)
Fixpoint compare_parts (pairs : list (Z * Z)) : bool :=
  match pairs with
  | [] => true
  | (part1, part2) :: rest =>
      if part1 >? part2 then true
      else if part1 <? part2 then false
      else compare_parts rest
  end.

Definition version_ge (version1 version2 : string) : result bool :=
  let version1 := item0 (split "+" version1) in
  let version2 := item0 (split "+" version2) in
  do parts1 <- comprehension py_int (split_version version1);
  do parts2 <- comprehension py_int (split_version version2);
  let max_length := Nat.max (length parts1) (length parts2) in
  let parts1 := parts1 ++ List.repeat 0 (max_length - length parts1) in
  let parts2 := parts2 ++ List.repeat 0 (max_length - length parts2) in
  Return (compare_parts (combine parts1 parts2)).

(** ** [check_package_version] *)

(** The values stored in the returned dict ([dict[str, object]]). *)
Inductive object : Type :=
| PyNone
| PyStr (s : string)
| PyBool (b : bool).

(** An argument of type [str | None] as an object. *)
Definition of_optional (o : option string) : object :=
  match o with
  | Some s => PyStr s
  | None => PyNone
  end.

(** What the host offers: [importlib.import_module] (which may raise
    anything) and [importlib.metadata.version].  The two [import]
    statements of the standard library that open the [try] block are
    taken to succeed. *)
Record py_env : Type := {
  import_module : string -> result unit;
  version : string -> result string
}.

(** [try: body / except ImportError: handler]. *)
Definition try_except_ImportError {A : Type} (body handler : result A)
  : result A :=
  match body with
  | Return a => Return a
  | Raise e => if is_ImportError e then handler else Raise e
  end.

Definition check_package_version (env : py_env) (package : string)
    (min_version : option string) : result (gmap string object) :=
  do bound <-
    try_except_ImportError
      (do _ <- import_module env package;
       do ver <- version env package;
       do at_least_min_version <-
         match min_version with
         | None => Return PyNone
         | Some min_version =>
             do b <- version_ge ver min_version; Return (PyBool b)
         end;
       Return (PyStr ver, at_least_min_version))
      (Return (PyNone, PyNone));
  let '(ver, at_least_min_version) := bound in
  Return (<["at_least_min_version" := at_least_min_version]>
          (<["min_version" := of_optional min_version]>
           (<["version" := ver]>
            (<["package" := PyStr package]>
             (<["language" := PyStr "python"]> ∅))))).

End Interpreter.

(** ** Notions of the specification *)

(** The part of a version string before its first ['+']. *)
Fixpoint before_plus (s : string) : string :=
  match s with
  | EmptyString => EmptyString
  | String c s' => if Ascii.eqb c "+" then EmptyString
                   else String c (before_plus s')
  end.

(** Normalisation of the development markers. *)
Definition normalize (s : string) : string :=
  replace "dev" "." (replace ".dev" "." s).

(** The dot-separated segments left after dropping the local-build
    suffix and normalising. *)
Definition segments (v : string) : list string :=
  split "." (normalize (before_plus v)).

(** The parsed integer sequence of a version string. *)
Definition parsed (int_max_str_digits : nat) (v : string) : result (list Z) :=
  comprehension (py_int int_max_str_digits) (segments v).

(** Right-padding with zeros to length [n]. *)
Definition pad (n : nat) (l : list Z) : list Z :=
  l ++ List.repeat 0 (n - length l).

(** Lexicographic order on integer sequences: [l1] is above [l2] when,
    after a common prefix, [l1] carries the greater element. *)
Definition lex_gt (l1 l2 : list Z) : Prop :=
  exists p x y r1 r2, l1 = p ++ x :: r1 /\ l2 = p ++ y :: r2 /\ y < x.

Definition lex_ge (l1 l2 : list Z) : Prop := l1 = l2 \/ lex_gt l1 l2.

(** Decimal literals as [int] reads them: blanks, an optional sign, a
    digit, then digits each optionally preceded by one underscore, and
    blanks. *)
Definition is_digit (c : ascii) : Prop := is_Some (digit_value c).

Inductive digit_tail : string -> Prop :=
| tail_end : digit_tail EmptyString
| tail_digit c s : is_digit c -> digit_tail s -> digit_tail (String c s)
| tail_underscore c s :
    is_digit c -> digit_tail s -> digit_tail (String "_" (String c s)).

Definition is_sign (s : string) : Prop :=
  s = EmptyString \/ s = "+"%string \/ s = "-"%string.

Definition int_literal (s : string) : Prop :=
  exists lead sign c tail trail,
    s = lead +:+ sign +:+ String c tail +:+ trail /\
    all_space lead = true /\ is_sign sign /\
    is_digit c /\ digit_tail tail /\ all_space trail = true.

(** The number of digit characters of a string. *)
Fixpoint count_digits (s : string) : nat :=
  match s with
  | EmptyString => 0%nat
  | String c s' =>
      (match digit_value c with Some _ => 1 | None => 0 end
       + count_digits s')%nat
  end.

(** A literal that [int] accepts under the interpreter's digit limit. *)
Definition valid_int_literal (int_max_str_digits : nat) (s : string) : Prop :=
  int_literal s /\ exceeds_limit int_max_str_digits (count_digits s) = false.

(** What may follow the digits of a literal for the scan to stop there. *)
Definition stops (rest : string) : Prop :=
  match rest with
  | EmptyString => True
  | String c _ => digit_value c = None /\ Ascii.eqb c "_" = false
  end.

(** [s.endswith(suffix)]. *)
Definition endswith (suffix s : string) : Prop :=
  exists r, s = r +:+ suffix.

(** [all(P(c) for c in s)]. *)
Fixpoint every (P : ascii -> bool) (s : string) : bool :=
  match s with
  | EmptyString => true
  | String c s' => P c && every P s'
  end.

(** The character [a] does not occur in [s]. *)
Definition absent (a : ascii) (s : string) : bool :=
  every (fun c => negb (Ascii.eqb c a)) s.

Definition isdigit (c : ascii) : bool :=
  match digit_value c with Some _ => true | None => false end.

(** A release version: decimal digits and dots only. *)
Definition release_string (s : string) : Prop :=
  every (fun c => isdigit c || Ascii.eqb c ".") s = true.

(** The number after a development marker: decimal digits, at least
    one. *)
Definition digit_string (s : string) : Prop :=
  s <> EmptyString /\ every isdigit s = true.

(** ** Strings *)

Lemma append_cons (c : ascii) (s t : string) :
  String c s +:+ t = String c (s +:+ t).
Proof. reflexivity. Qed.

Lemma append_empty_l (t : string) : EmptyString +:+ t = t.
Proof. reflexivity. Qed.

Lemma append_empty_r (s : string) : s +:+ EmptyString = s.
Proof.
  induction s as [|c s IH]; [reflexivity|].
  rewrite append_cons, IH. reflexivity.
Qed.

Lemma append_assoc (s t u : string) : (s +:+ t) +:+ u = s +:+ t +:+ u.
Proof.
  induction s as [|c s IH]; [reflexivity|].
  rewrite !append_cons, IH. reflexivity.
Qed.

Lemma split_nonempty (sep : ascii) (s : string) : split sep s <> [].
Proof.
  destruct s as [|c s]; simpl; [discriminate|].
  destruct (Ascii.eqb c sep); [discriminate|].
  destruct (split sep s); discriminate.
Qed.

(** [version.split("+")[0]] is the part before the first ['+']. *)
Lemma item0_split_plus (s : string) : item0 (split "+" s) = before_plus s.
Proof.
  induction s as [|c s IH]; simpl; [reflexivity|].
  destruct (Ascii.eqb c "+"); [reflexivity|].
  destruct (split "+" s) as [|w ws] eqn:E.
  - exfalso. exact (split_nonempty _ _ E).
  - simpl in *. rewrite IH. reflexivity.
Qed.

Lemma before_plus_suffix (v xyz : string) :
  before_plus (v +:+ "+" +:+ xyz) = before_plus v.
Proof.
  induction v as [|c v IH].
  - reflexivity.
  - rewrite append_cons. simpl. rewrite IH.
    destruct (Ascii.eqb c "+") eqn:E; [|reflexivity].
    reflexivity.
Qed.

(** Splitting a string that ends with the separator leaves an empty
    last piece. *)
Lemma split_trailing_sep (sep : ascii) (p : string) :
  split sep (p +:+ String sep EmptyString) = split sep p ++ [EmptyString].
Proof.
  induction p as [|c p IH].
  - rewrite append_empty_l. simpl. rewrite Ascii.eqb_refl. reflexivity.
  - rewrite append_cons. simpl. rewrite IH.
    destruct (Ascii.eqb c sep); [reflexivity|].
    destruct (split sep p) as [|w ws] eqn:E.
    + exfalso. exact (split_nonempty _ _ E).
    + reflexivity.
Qed.

(** The equations of [str.replace]: at a match the replacement is
    emitted and the scan resumes after the match; elsewhere the
    character is copied. *)
Lemma startswith_append (p s : string) : startswith p (p +:+ s) = true.
Proof.
  induction p as [|c p IH]; [destruct s; reflexivity|].
  rewrite append_cons. simpl. rewrite Ascii.eqb_refl. exact IH.
Qed.

Lemma replace_from_skip (old new p s : string) :
  replace_from old new (String.length p) (p +:+ s) = replace_from old new 0 s.
Proof.
  induction p as [|c p IH]; [reflexivity|].
  rewrite append_cons. simpl. exact IH.
Qed.

Lemma replace_match (old new s : string) :
  old <> EmptyString ->
  replace old new (old +:+ s) = new +:+ replace old new s.
Proof.
  intros Hne. unfold replace. destruct old as [|c old]; [contradiction|].
  pose proof (startswith_append (String c old) s) as Hs.
  rewrite append_cons in *. cbn [replace_from]. rewrite Hs.
  cbn [String.length]. rewrite Nat.sub_succ, Nat.sub_0_r, replace_from_skip.
  reflexivity.
Qed.

Lemma replace_copy (old new : string) (c : ascii) (s : string) :
  startswith old (String c s) = false ->
  replace old new (String c s) = String c (replace old new s).
Proof. intros H. unfold replace. cbn [replace_from]. rewrite H. reflexivity. Qed.

Lemma every_append (P : ascii -> bool) (s t : string) :
  every P (s +:+ t) = every P s && every P t.
Proof.
  induction s as [|c s IH]; [reflexivity|].
  rewrite append_cons. simpl. rewrite IH, andb_assoc. reflexivity.
Qed.

Lemma every_impl (P Q : ascii -> bool) (s : string) :
  (forall c, P c = true -> Q c = true) ->
  every P s = true -> every Q s = true.
Proof.
  intros HPQ. induction s as [|c s IH]; simpl; [reflexivity|].
  intros [Hc Hs]%andb_prop. rewrite (HPQ c Hc), IH; auto.
Qed.

(** A pattern that contains a character absent from [s] does not start
    [s], and replacing it leaves [s] as it is. *)
Lemma startswith_absent (a : ascii) (old s : string) :
  In a (list_ascii_of_string old) -> absent a s = true ->
  startswith old s = false.
Proof.
  revert s. induction old as [|c old IH]; intros s Hin Ha; [destruct Hin|].
  destruct s as [|b s]; [reflexivity|]. simpl in *.
  apply andb_prop in Ha as [Hb Hs].
  destruct Hin as [-> | Hin].
  - rewrite Ascii.eqb_sym. apply negb_true_iff in Hb. rewrite Hb. reflexivity.
  - rewrite (IH s Hin Hs). apply andb_false_r.
Qed.

Lemma replace_absent (a : ascii) (old new s : string) :
  In a (list_ascii_of_string old) -> absent a s = true ->
  replace old new s = s.
Proof.
  intros Hin. induction s as [|c s IH]; intros Ha; [reflexivity|].
  rewrite replace_copy by (apply (startswith_absent a); assumption).
  simpl in Ha. apply andb_prop in Ha as [_ Hs]. rewrite IH; auto.
Qed.

Lemma before_plus_absent (s : string) :
  absent "+" s = true -> before_plus s = s.
Proof.
  induction s as [|c s IH]; simpl; [reflexivity|].
  intros [Hc Hs]%andb_prop. apply negb_true_iff in Hc.
  rewrite Hc, IH; auto.
Qed.

Lemma split_append_sep (sep : ascii) (p q : string) :
  split sep (p +:+ String sep q) = split sep p ++ split sep q.
Proof.
  induction p as [|c p IH].
  - rewrite append_empty_l. simpl. rewrite Ascii.eqb_refl. reflexivity.
  - rewrite append_cons. simpl. rewrite IH.
    destruct (Ascii.eqb c sep); [reflexivity|].
    destruct (split sep p) as [|w ws] eqn:E.
    + exfalso. exact (split_nonempty _ _ E).
    + reflexivity.
Qed.

Lemma split_absent (sep : ascii) (s : string) :
  absent sep s = true -> split sep s = [s].
Proof.
  induction s as [|c s IH]; simpl; [reflexivity|].
  intros [Hc Hs]%andb_prop. apply negb_true_iff in Hc.
  rewrite Hc, IH; auto.
Qed.

(** [version_ge] seen through the notions of the specification. *)
Lemma version_ge_parsed (lim : nat) (a b : string) :
  version_ge lim a b =
    (do pa <- parsed lim a;
     do pb <- parsed lim b;
     let n := Nat.max (length pa) (length pb) in
     Return (compare_parts (combine (pad n pa) (pad n pb)))).
Proof.
  unfold version_ge, parsed, segments, normalize, split_version, pad.
  rewrite !item0_split_plus. reflexivity.
Qed.

(** ** The comparison loop *)

Lemma pad_length (n : nat) (l : list Z) :
  (length l <= n)%nat -> length (pad n l) = n.
Proof.
  intros H. unfold pad. rewrite length_app, repeat_length. lia.
Qed.

Lemma compare_parts_refl (l : list Z) : compare_parts (combine l l) = true.
Proof.
  induction l as [|x l IH]; simpl; [reflexivity|].
  destruct (x >? x) eqn:E1; [reflexivity|].
  destruct (x <? x) eqn:E2; [lia|]. exact IH.
Qed.

Lemma lex_gt_cons (x : Z) (l1 l2 : list Z) :
  lex_gt l1 l2 -> lex_gt (x :: l1) (x :: l2).
Proof.
  intros (p & a & b & r1 & r2 & -> & -> & Hlt).
  exists (x :: p), a, b, r1, r2. auto.
Qed.

Lemma lex_gt_inv (x y : Z) (l1 l2 : list Z) :
  lex_gt (x :: l1) (y :: l2) -> y < x \/ (x = y /\ lex_gt l1 l2).
Proof.
  intros (p & a & b & r1 & r2 & H1 & H2 & Hlt).
  destruct p as [|z p]; simpl in *.
  - injection H1 as -> _. injection H2 as -> _. left. exact Hlt.
  - injection H1 as -> ->. injection H2 as -> ->. right. split; [reflexivity|].
    exists p, a, b, r1, r2. auto.
Qed.

(** On sequences of equal length the loop decides the lexicographic
    order. *)
Lemma compare_parts_lex (l1 l2 : list Z) :
  length l1 = length l2 ->
  (compare_parts (combine l1 l2) = true <-> lex_ge l1 l2).
Proof.
  revert l2. induction l1 as [|x l1 IH]; intros [|y l2] Hlen;
    simpl in Hlen; try discriminate.
  - simpl. split; [left; reflexivity | reflexivity].
  - simpl. destruct (x >? y) eqn:E1.
    + split; [|reflexivity]. intros _. right.
      exists [], x, y, l1, l2. repeat split; lia.
    + destruct (x <? y) eqn:E2.
      * split; [discriminate|]. intros [Heq | Hgt].
        -- injection Heq as -> _. lia.
        -- apply lex_gt_inv in Hgt. lia.
      * assert (x = y) as -> by lia.
        rewrite (IH l2) by lia. split.
        -- intros [-> | Hgt]; [left; reflexivity | right].
           apply lex_gt_cons. exact Hgt.
        -- intros [Heq | Hgt].
           ++ injection Heq as ->. left. reflexivity.
           ++ apply lex_gt_inv in Hgt. destruct Hgt as [Hlt | [_ Hgt]];
                [lia | right; exact Hgt].
Qed.

(** The loop is total and antisymmetric on sequences of equal length. *)
Lemma compare_parts_total (l1 l2 : list Z) :
  compare_parts (combine l1 l2) = true \/
  compare_parts (combine l2 l1) = true.
Proof.
  revert l2. induction l1 as [|x l1 IH]; intros [|y l2]; simpl; auto.
  destruct (x >? y) eqn:E1; [left; reflexivity|].
  destruct (y >? x) eqn:E2; [right; reflexivity|].
  destruct (x <? y) eqn:E3; [lia|].
  destruct (y <? x) eqn:E4; [lia|].
  apply IH.
Qed.

Lemma compare_parts_antisym (l1 l2 : list Z) :
  length l1 = length l2 ->
  compare_parts (combine l1 l2) = true ->
  compare_parts (combine l2 l1) = true ->
  l1 = l2.
Proof.
  revert l2. induction l1 as [|x l1 IH]; intros [|y l2] Hlen;
    simpl in Hlen; try discriminate; [reflexivity|].
  simpl.
  destruct (x >? y) eqn:E1; destruct (y >? x) eqn:E2;
    destruct (x <? y) eqn:E3; destruct (y <? x) eqn:E4;
    try lia; try discriminate.
  intros H1 H2. assert (x = y) as -> by lia.
  f_equal. apply IH; [lia | assumption | assumption].
Qed.

(** ** Decimal literals *)

Ltac char_cases c :=
  destruct c as [[] [] [] [] [] [] [] []]; vm_compute;
  try discriminate; try reflexivity; auto.

Lemma space_not_digit (c : ascii) :
  is_space c = true -> digit_value c = None.
Proof. char_cases c. Qed.

Lemma space_not_mark (c : ascii) :
  is_space c = true ->
  Ascii.eqb c "_" = false /\ Ascii.eqb c "+" = false /\
  Ascii.eqb c "-" = false.
Proof. char_cases c. Qed.

Lemma digit_not_mark (c : ascii) :
  is_digit c ->
  Ascii.eqb c "_" = false /\ Ascii.eqb c "+" = false /\
  Ascii.eqb c "-" = false /\ is_space c = false.
Proof.
  unfold is_digit. intros [d Hd]. revert Hd. char_cases c.
Qed.

Lemma count_digits_append (s t : string) :
  count_digits (s +:+ t) = (count_digits s + count_digits t)%nat.
Proof.
  induction s as [|c s IH]; [reflexivity|].
  rewrite append_cons. simpl. rewrite IH. lia.
Qed.

Lemma count_digits_space (s : string) :
  all_space s = true -> count_digits s = 0%nat.
Proof.
  induction s as [|c s IH]; simpl; [reflexivity|].
  intros [Hc Hs]%andb_prop. rewrite (space_not_digit _ Hc), IH; auto.
Qed.

Lemma lstrip_lead (s : string) :
  exists lead, s = lead +:+ lstrip s /\ all_space lead = true.
Proof.
  induction s as [|c s (lead & Hs & Hlead)]; simpl.
  - exists EmptyString. auto.
  - destruct (is_space c) eqn:E.
    + exists (String c lead). rewrite append_cons, <- Hs. simpl.
      rewrite E, Hlead. auto.
    + exists EmptyString. auto.
Qed.

Lemma lstrip_append (lead s : string) :
  all_space lead = true -> lstrip (lead +:+ s) = lstrip s.
Proof.
  induction lead as [|c lead IH]; simpl; [reflexivity|].
  intros [Hc Hs]%andb_prop. rewrite Hc. auto.
Qed.

Lemma all_space_stops (s : string) : all_space s = true -> stops s.
Proof.
  destruct s as [|c s]; simpl; [auto|].
  intros [Hc _]%andb_prop. split.
  - apply space_not_digit, Hc.
  - apply space_not_mark, Hc.
Qed.

(** The scan reads a digit tail and stops at something else. *)
Lemma scan_digits_sound (r : string) :
  forall acc n v n' rest,
    scan_digits acc n r = Some (v, n', rest) ->
    exists t, r = t +:+ rest /\ digit_tail t /\
              n' = (n + count_digits t)%nat.
Proof.
  enough (H : (forall acc n v n' rest,
                 scan_digits acc n r = Some (v, n', rest) ->
                 exists t, r = t +:+ rest /\ digit_tail t /\
                           n' = (n + count_digits t)%nat) /\
              (forall c acc n v n' rest,
                 scan_digits acc n (String c r) = Some (v, n', rest) ->
                 exists t, String c r = t +:+ rest /\ digit_tail t /\
                           n' = (n + count_digits t)%nat))
    by apply H.
  induction r as [|a r [IH1 IH2]].
  - split.
    + simpl. intros acc n v n' rest [= <- <- <-].
      exists EmptyString. repeat split; [apply tail_end | simpl; lia].
    + intros c acc n v n' rest. simpl.
      destruct (digit_value c) as [d|] eqn:Ed.
      * intros [= <- <- <-]. exists (String c EmptyString).
        repeat split.
        -- constructor; [exists d; exact Ed | constructor].
        -- simpl. rewrite Ed. lia.
      * destruct (Ascii.eqb c "_"); [discriminate|].
        intros [= <- <- <-]. exists EmptyString.
        repeat split; [apply tail_end | simpl; lia].
  - split; [exact (IH2 a)|].
    intros c acc n v n' rest. simpl.
    destruct (digit_value c) as [d|] eqn:Ed.
    + intros H. apply (IH2 a) in H as (t & Ht & Htail & Hn).
      exists (String c t). rewrite append_cons, <- Ht. repeat split.
      * constructor; [exists d; exact Ed | exact Htail].
      * simpl. rewrite Ed. lia.
    + destruct (Ascii.eqb c "_") eqn:Eu.
      * apply Ascii.eqb_eq in Eu. subst c.
        destruct (digit_value a) as [d|] eqn:Ea; [|discriminate].
        intros H. apply IH1 in H as (t & Ht & Htail & Hn).
        exists (String "_" (String a t)).
        rewrite !append_cons, <- Ht. repeat split.
        -- constructor; [exists d; exact Ea | exact Htail].
        -- simpl. rewrite Ea. simpl in Ed. lia.
      * intros [= <- <- <-]. exists EmptyString.
        repeat split; [apply tail_end | simpl; lia].
Qed.

Lemma scan_digits_complete (t rest : string) :
  digit_tail t -> stops rest ->
  forall acc n, exists v,
    scan_digits acc n (t +:+ rest) = Some (v, (n + count_digits t)%nat, rest).
Proof.
  intros Ht Hrest. induction Ht as [|c s [d Hd] _ IH|c s [d Hd] _ IH];
    intros acc n.
  - rewrite append_empty_l. simpl. rewrite Nat.add_0_r.
    destruct rest as [|c rest]; simpl; [eauto|].
    destruct Hrest as [-> ->]. eauto.
  - rewrite append_cons. simpl. rewrite Hd.
    destruct (IH (10 * acc + d) (S n)) as [v Hv].
    exists v. rewrite Hv. do 3 f_equal. lia.
  - rewrite !append_cons. simpl. rewrite Hd.
    destruct (IH (10 * acc + d) (S n)) as [v Hv].
    exists v. rewrite Hv. do 3 f_equal. lia.
Qed.

Lemma lstrip_nonspace (c : ascii) (r : string) :
  is_space c = false -> lstrip (String c r) = String c r.
Proof. intros H. simpl. rewrite H. reflexivity. Qed.

Lemma split_sign_sound (s body : string) (sg : Z) :
  split_sign s = (sg, body) ->
  exists sign, s = sign +:+ body /\ is_sign sign /\
               count_digits sign = 0%nat.
Proof.
  unfold split_sign, is_sign. destruct s as [|c r].
  - intros [= <- <-]. exists EmptyString. auto.
  - destruct (Ascii.eqb c "+") eqn:Ep.
    { apply Ascii.eqb_eq in Ep. subst c. intros [= <- <-].
      exists "+"%string. auto. }
    destruct (Ascii.eqb c "-") eqn:Em.
    { apply Ascii.eqb_eq in Em. subst c. intros [= <- <-].
      exists "-"%string. auto. }
    intros [= <- <-]. exists EmptyString. auto.
Qed.

Lemma split_sign_complete (sign : string) (c : ascii) (r : string) :
  is_sign sign -> is_digit c ->
  exists sg, split_sign (sign +:+ String c r) = (sg, String c r).
Proof.
  intros [-> | [-> | ->]] Hc.
  - rewrite append_empty_l. unfold split_sign.
    destruct (digit_not_mark c Hc) as (_ & -> & -> & _). eauto.
  - exists 1. reflexivity.
  - exists (-1). reflexivity.
Qed.

Lemma scan_body_sound (b : string) (v : Z) (n : nat) :
  scan_body b = Some (v, n) ->
  exists c t rest, b = String c t +:+ rest /\ is_digit c /\
                   digit_tail t /\ all_space rest = true /\
                   n = count_digits b.
Proof.
  unfold scan_body. destruct b as [|c r]; [discriminate|].
  destruct (digit_value c) as [d|] eqn:Ed; [|discriminate].
  destruct (scan_digits d 1 r) as [[[v' n'] rest]|] eqn:Es; [|discriminate].
  destruct (all_space rest) eqn:Er; [|discriminate].
  intros [= <- <-].
  apply scan_digits_sound in Es as (t & -> & Ht & ->).
  exists c, t, rest. repeat split; auto.
  - exists d. exact Ed.
  - simpl. rewrite Ed, count_digits_append, (count_digits_space rest Er).
    lia.
Qed.

Lemma scan_body_complete (c : ascii) (t rest : string) :
  is_digit c -> digit_tail t -> all_space rest = true ->
  exists v, scan_body (String c t +:+ rest)
            = Some (v, count_digits (String c t +:+ rest)).
Proof.
  intros [d Hd] Ht Hrest. rewrite append_cons. simpl. rewrite Hd.
  destruct (scan_digits_complete t rest Ht (all_space_stops _ Hrest) d 1)
    as [v Hv].
  rewrite Hv, Hrest. exists v. do 2 f_equal.
  rewrite count_digits_append, (count_digits_space rest Hrest). lia.
Qed.

(** [scan_int] accepts exactly the decimal literals, and reports their
    number of digits. *)
Lemma scan_int_sound (s : string) (v : Z) (n : nat) :
  scan_int s = Some (v, n) -> int_literal s /\ n = count_digits s.
Proof.
  unfold scan_int. destruct (lstrip_lead s) as (lead & Hs & Hlead).
  destruct (split_sign (lstrip s)) as [sg body] eqn:Esg.
  destruct (scan_body body) as [[v' n']|] eqn:Eb; [|discriminate].
  intros [= <- <-].
  apply split_sign_sound in Esg as (sign & Hsign & Hsg & Hcount).
  apply scan_body_sound in Eb as (c & t & rest & Hb & Hc & Ht & Hrest & ->).
  split.
  - exists lead, sign, c, t, rest. repeat split; auto.
    rewrite Hs at 1. rewrite Hsign, Hb. reflexivity.
  - rewrite Hs at 1. rewrite Hsign, !count_digits_append, Hcount.
    rewrite (count_digits_space lead Hlead). lia.
Qed.

Lemma scan_int_complete (s : string) :
  int_literal s -> exists v, scan_int s = Some (v, count_digits s).
Proof.
  intros (lead & sign & c & t & rest & -> & Hlead & Hsign & Hc & Ht & Hrest).
  unfold scan_int. rewrite (lstrip_append _ _ Hlead).
  assert (Hl : lstrip (sign +:+ String c t +:+ rest)
               = sign +:+ String c t +:+ rest).
  { destruct Hsign as [-> | [-> | ->]]; try reflexivity.
    rewrite append_empty_l, append_cons. apply lstrip_nonspace.
    apply (digit_not_mark c Hc). }
  rewrite Hl.
  destruct (split_sign_complete sign c (t +:+ rest) Hsign Hc) as [sg Hsg].
  rewrite append_cons, Hsg, <- append_cons.
  destruct (scan_body_complete c t rest Hc Ht Hrest) as [v Hv].
  rewrite Hv. exists (sg * v). do 2 f_equal.
  rewrite !count_digits_append, (count_digits_space lead Hlead).
  destruct Hsign as [-> | [-> | ->]]; reflexivity.
Qed.

(** ** [int] and the list comprehension *)

(** [int] returns on the valid literals and raises [ValueError] on every
    other string. *)
Lemma py_int_cases (lim : nat) (s : string) :
  (exists v, py_int lim s = Return v /\ valid_int_literal lim s) \/
  (py_int lim s = Raise ValueError /\ ~ valid_int_literal lim s).
Proof.
  unfold py_int, valid_int_literal.
  destruct (scan_int s) as [[v n]|] eqn:E.
  - apply scan_int_sound in E as [Hlit ->].
    destruct (exceeds_limit lim (count_digits s)) eqn:El.
    + right. split; [reflexivity|]. intros [_ H]. congruence.
    + left. eauto.
  - right. split; [reflexivity|]. intros [Hlit _].
    apply scan_int_complete in Hlit as [v Hv]. congruence.
Qed.

Lemma py_int_empty (lim : nat) : py_int lim EmptyString = Raise ValueError.
Proof. reflexivity. Qed.

Lemma comprehension_py_int_cases (lim : nat) (xs : list string) :
  (exists l, comprehension (py_int lim) xs = Return l /\
             Forall (valid_int_literal lim) xs) \/
  (comprehension (py_int lim) xs = Raise ValueError /\
   Exists (fun x => ~ valid_int_literal lim x) xs).
Proof.
  induction xs as [|x xs IH]; simpl.
  - left. exists []. auto.
  - destruct (py_int_cases lim x) as [(v & -> & Hv) | [-> Hx]]; simpl.
    + destruct IH as [(l & -> & Hl) | [-> Hxs]]; simpl.
      * left. exists (v :: l). auto.
      * right. auto.
    + right. auto.
Qed.

(** An empty segment makes the conversion of the segments fail. *)
Lemma comprehension_py_int_empty (lim : nat) (xs : list string) :
  In EmptyString xs -> comprehension (py_int lim) xs = Raise ValueError.
Proof.
  intros Hin.
  destruct (comprehension_py_int_cases lim xs) as [(l & _ & Hall) | [H _]];
    [|exact H].
  rewrite Forall_forall in Hall. apply list_elem_of_In, Hall in Hin.
  destruct (py_int_cases lim EmptyString) as [(v & Hv & _) | [_ Hn]].
  - rewrite py_int_empty in Hv. discriminate.
  - contradiction.
Qed.

(** The three ways [version_ge] can go. *)
Lemma version_ge_cases (lim : nat) (a b : string) :
  (exists pa pb,
     parsed lim a = Return pa /\ parsed lim b = Return pb /\
     Forall (valid_int_literal lim) (segments a ++ segments b) /\
     version_ge lim a b =
       Return (compare_parts
                 (combine (pad (Nat.max (length pa) (length pb)) pa)
                          (pad (Nat.max (length pa) (length pb)) pb)))) \/
  (version_ge lim a b = Raise ValueError /\
   Exists (fun x => ~ valid_int_literal lim x) (segments a ++ segments b)).
Proof.
  rewrite version_ge_parsed. unfold parsed.
  destruct (comprehension_py_int_cases lim (segments a))
    as [(pa & -> & Ha) | [-> Ha]]; simpl.
  - destruct (comprehension_py_int_cases lim (segments b))
      as [(pb & -> & Hb) | [-> Hb]]; simpl.
    + left. exists pa, pb. repeat split; auto.
      apply Forall_app. auto.
    + right. split; [reflexivity|]. apply Exists_app. auto.
  - right. split; [reflexivity|]. apply Exists_app. auto.
Qed.

(** ** Development markers *)

Lemma endswith_cons (suffix s : string) (c : ascii) :
  endswith suffix s -> endswith suffix (String c s).
Proof. intros [r ->]. exists (String c r). reflexivity. Qed.

Lemma endswith_append (suffix s t : string) :
  endswith suffix s -> endswith suffix (t +:+ s).
Proof.
  intros [r ->]. exists (t +:+ r). rewrite append_assoc. reflexivity.
Qed.

(** Replacing ["dev"] in a string that ends with ["dev"] leaves a string
    that ends with the replacement. *)
Lemma replace_dev_marker (s : string) (k : nat) :
  (k <= String.length s)%nat ->
  endswith "." (replace_from "dev" "." k (s +:+ "dev")).
Proof.
  revert k. induction s as [|c s IH]; intros k Hk.
  - simpl in Hk. replace k with 0%nat by lia. exists EmptyString. reflexivity.
  - rewrite append_cons. destruct k as [|k].
    + cbn [replace_from].
      destruct (startswith "dev" (String c (s +:+ "dev"))) eqn:E.
      * apply endswith_append.
        destruct s as [|x [|y s]].
        -- simpl in E. rewrite ?andb_false_r in E. discriminate.
        -- simpl in E. rewrite ?andb_false_r in E. discriminate.
        -- apply IH. simpl. lia.
      * apply endswith_cons, IH. lia.
    + cbn [replace_from]. apply IH. simpl in Hk. lia.
Qed.

(** A final ['.'] is never part of a ["dev"] marker: it is copied. *)
Lemma replace_dev_dot (s : string) (k : nat) :
  (k <= String.length s)%nat ->
  endswith "." (replace_from "dev" "." k (s +:+ ".")).
Proof.
  revert k. induction s as [|c s IH]; intros k Hk.
  - simpl in Hk. replace k with 0%nat by lia. exists EmptyString. reflexivity.
  - rewrite append_cons. destruct k as [|k].
    + cbn [replace_from].
      destruct (startswith "dev" (String c (s +:+ "."))) eqn:E.
      * apply endswith_append.
        destruct s as [|x [|y s]].
        -- simpl in E. rewrite ?andb_false_r in E. discriminate.
        -- simpl in E. rewrite ?andb_false_r in E. discriminate.
        -- apply IH. simpl. lia.
      * apply endswith_cons, IH. lia.
    + cbn [replace_from]. apply IH. simpl in Hk. lia.
Qed.

(** Replacing [".dev"] in a string that ends with ["dev"] either
    consumes that marker or leaves it in place. *)
Lemma replace_dotdev_marker (s : string) (k : nat) :
  (k <= String.length s)%nat ->
  endswith "." (replace_from ".dev" "." k (s +:+ "dev")) \/
  endswith "dev" (replace_from ".dev" "." k (s +:+ "dev")).
Proof.
  revert k. induction s as [|c s IH]; intros k Hk.
  - simpl in Hk. replace k with 0%nat by lia. right.
    exists EmptyString. reflexivity.
  - rewrite append_cons. destruct k as [|k].
    + cbn [replace_from].
      destruct (startswith ".dev" (String c (s +:+ "dev"))) eqn:E.
      * destruct s as [|x [|y [|z s]]].
        -- left. exists EmptyString. reflexivity.
        -- simpl in E. rewrite ?andb_false_r in E. discriminate.
        -- simpl in E. rewrite ?andb_false_r in E. discriminate.
        -- destruct (IH 3%nat) as [H | H]; [simpl; lia | |].
           ++ left. apply endswith_append, H.
           ++ right. apply endswith_append, H.
      * destruct (IH 0%nat) as [H | H]; [lia | |].
        -- left. apply endswith_cons, H.
        -- right. apply endswith_cons, H.
    + cbn [replace_from]. apply IH. simpl in Hk. lia.
Qed.

(** Normalising a string that ends with a bare marker leaves a string
    that ends with ['.']. *)
Lemma normalize_bare_marker (s : string) :
  endswith "dev" s -> endswith "." (normalize s).
Proof.
  intros [p ->]. unfold normalize, replace.
  destruct (replace_dotdev_marker p 0) as [[r ->] | [r ->]]; [lia | |].
  - apply replace_dev_dot. lia.
  - apply replace_dev_marker. lia.
Qed.

Lemma segments_bare_marker (v : string) :
  endswith "dev" (before_plus v) -> In EmptyString (segments v).
Proof.
  intros H. apply normalize_bare_marker in H as [r Hr].
  unfold segments. rewrite Hr, split_trailing_sep.
  apply in_or_app. right. left. reflexivity.
Qed.

Lemma version_ge_raise_ValueError (lim : nat) (a b : string) (e : exn) :
  version_ge lim a b = Raise e -> e = ValueError.
Proof.
  destruct (version_ge_cases lim a b)
    as [(pa & pb & _ & _ & _ & ->) | [-> _]]; [discriminate|].
  intros [= <-]. reflexivity.
Qed.

(** ** A development pre-release against its release *)

Lemma comprehension_app {A B : Type} (f : A -> result B) (xs ys : list A)
    (l1 l2 : list B) :
  comprehension f xs = Return l1 ->
  comprehension f ys = Return l2 ->
  comprehension f (xs ++ ys) = Return (l1 ++ l2).
Proof.
  revert l1. induction xs as [|x xs IH]; intros l1; simpl.
  - intros [= <-] H. exact H.
  - destruct (f x) as [y|e]; simpl; [|discriminate].
    destruct (comprehension f xs) as [l|e]; simpl; [|discriminate].
    intros [= <-] H. rewrite (IH l eq_refl H). reflexivity.
Qed.

Lemma digit_value_range (c : ascii) (d : Z) :
  digit_value c = Some d -> 0 <= d <= 9.
Proof.
  unfold digit_value.
  destruct ((48 <=? Z.of_N (N_of_ascii c)) && (Z.of_N (N_of_ascii c) <=? 57))
    eqn:E; [|discriminate].
  intros [= <-]. apply andb_prop in E. lia.
Qed.

Lemma scan_digits_nonneg (r : string) :
  forall acc n v n' rest,
    0 <= acc -> scan_digits acc n r = Some (v, n', rest) -> 0 <= v.
Proof.
  enough (H : (forall acc n v n' rest,
                 0 <= acc -> scan_digits acc n r = Some (v, n', rest) ->
                 0 <= v) /\
              (forall c acc n v n' rest,
                 0 <= acc ->
                 scan_digits acc n (String c r) = Some (v, n', rest) ->
                 0 <= v))
    by apply H.
  induction r as [|a r [IH1 IH2]].
  - split.
    + simpl. intros acc n v n' rest Hacc [= <- _ _]. exact Hacc.
    + intros c acc n v n' rest Hacc. simpl.
      destruct (digit_value c) as [d|] eqn:Ed.
      * apply digit_value_range in Ed. intros [= <- _ _]. lia.
      * destruct (Ascii.eqb c "_"); [discriminate|].
        intros [= <- _ _]. exact Hacc.
  - split; [exact (IH2 a)|].
    intros c acc n v n' rest Hacc. simpl.
    destruct (digit_value c) as [d|] eqn:Ed.
    + apply digit_value_range in Ed. apply (IH2 a). lia.
    + destruct (Ascii.eqb c "_").
      * destruct (digit_value a) as [d|] eqn:Ea; [|discriminate].
        apply digit_value_range in Ea. apply IH1. lia.
      * intros [= <- _ _]. exact Hacc.
Qed.

(** [int] of a string of digits is not negative. *)
Lemma py_int_digit_string (lim : nat) (num : string) (d : Z) :
  digit_string num -> py_int lim num = Return d -> 0 <= d.
Proof.
  intros [Hne Hd]. destruct num as [|c r]; [contradiction|].
  simpl in Hd. apply andb_prop in Hd as [Hc _].
  unfold isdigit in Hc. destruct (digit_value c) as [d0|] eqn:Ed; [|discriminate].
  assert (Hdig : is_digit c) by (exists d0; exact Ed).
  destruct (digit_not_mark c Hdig) as (_ & Hp & Hm & Hsp).
  unfold py_int, scan_int. rewrite (lstrip_nonspace c r Hsp).
  unfold split_sign. rewrite Hp, Hm. unfold scan_body. rewrite Ed.
  destruct (scan_digits d0 1 r) as [[[v n] rest]|] eqn:Es; [|discriminate].
  apply scan_digits_nonneg in Es; [|apply (digit_value_range c), Ed].
  destruct (all_space rest); [|discriminate].
  destruct (exceeds_limit lim n); [discriminate|].
  intros [= <-]. lia.
Qed.

Lemma release_char_absent (a : ascii) (s : string) :
  isdigit a = false -> Ascii.eqb a "." = false ->
  release_string s -> absent a s = true.
Proof.
  intros Ha Hdot. apply every_impl. intros c Hc.
  apply negb_true_iff. destruct (Ascii.eqb c a) eqn:E; [|reflexivity].
  apply Ascii.eqb_eq in E. subst c. rewrite Ha, Hdot in Hc. discriminate.
Qed.

Lemma digit_char_absent (a : ascii) (s : string) :
  isdigit a = false -> every isdigit s = true -> absent a s = true.
Proof.
  intros Ha. apply every_impl. intros c Hc.
  apply negb_true_iff. destruct (Ascii.eqb c a) eqn:E; [|reflexivity].
  apply Ascii.eqb_eq in E. subst c. congruence.
Qed.

(** In front of a string without ['d'], the marker [".dev"] is the
    first match of the first replacement. *)
Lemma replace_dotdev_after (base rest : string) :
  absent "d" base = true ->
  replace ".dev" "." (base +:+ ".dev" +:+ rest)
  = base +:+ "." +:+ replace ".dev" "." rest.
Proof.
  induction base as [|c base IH]; intros Ha.
  - rewrite !append_empty_l. apply (replace_match ".dev"). discriminate.
  - simpl in Ha. apply andb_prop in Ha as [_ Ha].
    rewrite !(append_cons c base), replace_copy;
      [rewrite (IH Ha); reflexivity|].
    cbn [startswith]. apply andb_false_iff. right.
    destruct base as [|x base]; [reflexivity|].
    rewrite (append_cons x base). cbn [startswith].
    simpl in Ha. apply andb_prop in Ha as [Hx _].
    apply negb_true_iff in Hx. rewrite Ascii.eqb_sym, Hx. reflexivity.
Qed.

(** The segments of [base.devN] are those of [base] followed by [N]. *)
Lemma segments_dev (base num : string) :
  release_string base -> digit_string num ->
  segments base = split "." base /\
  segments (base +:+ ".dev" +:+ num) = split "." base ++ [num].
Proof.
  intros Hb [_ Hn].
  pose proof (release_char_absent "d" base eq_refl eq_refl Hb) as Hbd.
  pose proof (release_char_absent "+" base eq_refl eq_refl Hb) as Hbp.
  pose proof (digit_char_absent "d" num eq_refl Hn) as Hnd.
  pose proof (digit_char_absent "+" num eq_refl Hn) as Hnp.
  pose proof (digit_char_absent "." num eq_refl Hn) as Hndot.
  unfold segments, normalize. split.
  - rewrite (before_plus_absent base Hbp).
    rewrite (replace_absent "d" ".dev" "." base), (replace_absent "d" "dev");
      auto; simpl; auto.
  - rewrite before_plus_absent
      by (unfold absent; rewrite !every_append; fold (absent "+" base);
          fold (absent "+" num); rewrite Hbp, Hnp; reflexivity).
    rewrite (replace_dotdev_after base num Hbd).
    rewrite (replace_absent "." ".dev" "." num) by (simpl; auto).
    rewrite (replace_absent "d" "dev")
      by (simpl; auto; unfold absent; rewrite !every_append;
          fold (absent "d" base); fold (absent "d" num);
          rewrite Hbd, Hnd; reflexivity).
    change (base +:+ "." +:+ num) with (base +:+ String "." num).
    rewrite split_append_sep, (split_absent "." num Hndot). reflexivity.
Qed.

Lemma compare_parts_last (pb : list Z) (x y : Z) :
  compare_parts (combine (pb ++ [x]) (pb ++ [y])) = (y <=? x).
Proof.
  induction pb as [|z pb IH]; simpl.
  - destruct (x >? y) eqn:E1; [lia|]. destruct (x <? y) eqn:E2; lia.
  - destruct (z >? z) eqn:E1; [lia|]. destruct (z <? z) eqn:E2; [lia|].
    exact IH.
Qed.

(** X12. A development pre-release [base.devN] is greater-or-equal to
    the release [base]; the release is greater-or-equal to it only for
    [N = 0]. *)
Lemma version_ge_dev_release (lim : nat) (base num : string)
    (pb : list Z) (d : Z) :
  release_string base -> digit_string num ->
  parsed lim base = Return pb -> py_int lim num = Return d ->
  version_ge lim (base +:+ ".dev" +:+ num) base = Return true /\
  version_ge lim base (base +:+ ".dev" +:+ num) = Return (d =? 0).
Proof.
  intros Hb Hn Hpb Hd.
  pose proof (py_int_digit_string lim num d Hn Hd) as Hpos.
  destruct (segments_dev base num Hb Hn) as [Hs1 Hs2].
  assert (Hpd : parsed lim (base +:+ ".dev" +:+ num) = Return (pb ++ [d])).
  { unfold parsed in *. rewrite Hs2. rewrite Hs1 in Hpb.
    apply comprehension_app; [exact Hpb|]. simpl. rewrite Hd. reflexivity. }
  rewrite !version_ge_parsed, Hpd, Hpb. simpl.
  rewrite length_app. simpl.
  replace (Nat.max (length pb + 1) (length pb)) with (length pb + 1)%nat by lia.
  replace (Nat.max (length pb) (length pb + 1)) with (length pb + 1)%nat by lia.
  unfold pad. rewrite length_app. simpl.
  replace (length pb + 1 - (length pb + 1))%nat with 0%nat by lia.
  replace (length pb + 1 - length pb)%nat with 1%nat by lia.
  simpl. rewrite app_nil_r, !compare_parts_last.
  split; f_equal; lia.
Qed.

(** ** The properties of [version_ge] *)

(** C1. When both version strings parse, [version_ge] returns a boolean:
    [true] exactly when the parsed sequence of the first, padded with
    zeros to the common length, is lexicographically greater than or
    equal to the padded sequence of the second; in particular [true]
    when the padded sequences are equal. *)
Theorem version_ge_lexicographic (lim : nat) (a b : string) (pa pb : list Z) :
  parsed lim a = Return pa ->
  parsed lim b = Return pb ->
  (version_ge lim a b = Return true <->
     lex_ge (pad (Nat.max (length pa) (length pb)) pa)
            (pad (Nat.max (length pa) (length pb)) pb)) /\
  (version_ge lim a b = Return false <->
     ~ lex_ge (pad (Nat.max (length pa) (length pb)) pa)
              (pad (Nat.max (length pa) (length pb)) pb)) /\
  (pad (Nat.max (length pa) (length pb)) pa
     = pad (Nat.max (length pa) (length pb)) pb ->
   version_ge lim a b = Return true).
Proof.
  intros Ha Hb. rewrite version_ge_parsed, Ha, Hb. simpl.
  set (n := Nat.max (length pa) (length pb)).
  assert (Hlen : length (pad n pa) = length (pad n pb))
    by (rewrite !pad_length; lia).
  pose proof (compare_parts_lex _ _ Hlen) as Hlex.
  destruct (compare_parts (combine (pad n pa) (pad n pb))) eqn:E.
  - repeat split; auto.
    + intros _. apply Hlex. reflexivity.
    + discriminate.
    + intros Hn. exfalso. apply Hn, Hlex. reflexivity.
  - repeat split.
    + discriminate.
    + intros H. apply Hlex in H. discriminate.
    + intros _ H. apply Hlex in H. discriminate.
    + intros Heq. assert (H : lex_ge (pad n pa) (pad n pb)) by (left; exact Heq).
      apply Hlex in H. discriminate.
Qed.

Lemma version_ge_lexicographic_witness :
  (version_ge 4300 "0.3.1.dev16+g83" "0.3.1" = Return true <->
     lex_ge (pad 4 [0; 3; 1; 16]) (pad 4 [0; 3; 1])) /\
  (version_ge 4300 "0.3.1.dev16+g83" "0.3.1" = Return false <->
     ~ lex_ge (pad 4 [0; 3; 1; 16]) (pad 4 [0; 3; 1])) /\
  (pad 4 [0; 3; 1; 16] = pad 4 [0; 3; 1] ->
   version_ge 4300 "0.3.1.dev16+g83" "0.3.1" = Return true).
Proof.
  apply (version_ge_lexicographic 4300 "0.3.1.dev16+g83" "0.3.1"
           [0; 3; 1; 16] [0; 3; 1]); reflexivity.
Defined.

(** C2. On the two inputs the test list of the source expects [False]
    for, the function returns [True]: the marker of ["0.dev16"] and of
    ["0.3.dev16"] becomes a component that is compared with a release
    component of the other version. *)
Theorem version_ge_dev_before_release_component (lim : nat) :
  version_ge lim "0.dev16+g83" "0.0.1" = Return true /\
  version_ge lim "0.3.dev16+g83" "0.3.1" = Return true.
Proof. split; vm_compute; reflexivity. Qed.

(** C3. A development pre-release compares as greater-or-equal to the
    final release of the same base version, and the release does not
    compare as greater-or-equal to that pre-release. *)
Theorem version_ge_dev_vs_release (lim : nat) :
  version_ge lim "0.3.1.dev16+g83" "0.3.1" = Return true /\
  version_ge lim "0.3.1" "0.3.1.dev16+g83" = Return false.
Proof. split; vm_compute; reflexivity. Qed.

(** C4. [version_ge] raises [ValueError] exactly when one of the
    segments of one of its arguments is not a literal [int] accepts, it
    raises nothing else, and the exception is the outcome of the call:
    nothing inside catches it. *)
Theorem version_ge_raises_iff (lim : nat) (v1 v2 : string) :
  (version_ge lim v1 v2 = Raise ValueError <->
     exists seg, In seg (segments v1 ++ segments v2) /\
                 ~ valid_int_literal lim seg) /\
  (forall e, version_ge lim v1 v2 = Raise e -> e = ValueError).
Proof.
  destruct (version_ge_cases lim v1 v2)
    as [(pa & pb & _ & _ & Hall & ->) | [-> Hex]].
  - split.
    + split; [discriminate|]. intros (seg & Hin & Hseg).
      rewrite Forall_forall in Hall. exfalso. apply Hseg, Hall.
      apply list_elem_of_In, Hin.
    + discriminate.
  - split.
    + split; [|reflexivity]. intros _.
      apply Exists_exists in Hex as (seg & Hin & Hseg).
      exists seg. split; [apply list_elem_of_In, Hin | exact Hseg].
    + intros e [= <-]. reflexivity.
Qed.

(** C7. A local-build suffix never affects the comparison: appending
    ['+'] and any text to either argument leaves the outcome of
    [version_ge] unchanged, whatever that outcome is. *)
Theorem version_ge_local_suffix (lim : nat) (v1 v2 xyz : string) :
  version_ge lim (v1 +:+ "+" +:+ xyz) v2 = version_ge lim v1 v2 /\
  version_ge lim v1 (v2 +:+ "+" +:+ xyz) = version_ge lim v1 v2.
Proof.
  rewrite !version_ge_parsed. unfold parsed, segments.
  rewrite !before_plus_suffix. split; reflexivity.
Qed.

(** C9. The order is total on the version strings that parse: one of
    the two comparisons returns [true], and both do exactly when the
    padded parsed sequences are equal. *)
Theorem version_ge_total (lim : nat) (a b : string) (pa pb : list Z) :
  parsed lim a = Return pa ->
  parsed lim b = Return pb ->
  (version_ge lim a b = Return true \/ version_ge lim b a = Return true) /\
  (version_ge lim a b = Return true /\ version_ge lim b a = Return true <->
   pad (Nat.max (length pa) (length pb)) pa
     = pad (Nat.max (length pa) (length pb)) pb).
Proof.
  intros Ha Hb. rewrite !version_ge_parsed, Ha, Hb. simpl.
  rewrite (Nat.max_comm (length pb) (length pa)).
  set (n := Nat.max (length pa) (length pb)).
  assert (Hlen : length (pad n pa) = length (pad n pb))
    by (rewrite !pad_length; lia).
  split.
  - destruct (compare_parts_total (pad n pa) (pad n pb)) as [-> | ->]; auto.
  - split.
    + intros [[= H1] [= H2]]. apply compare_parts_antisym; assumption.
    + intros ->. rewrite compare_parts_refl. auto.
Qed.

Lemma version_ge_total_witness :
  (version_ge 4300 "0.3.1" "0.3.1.0" = Return true \/
   version_ge 4300 "0.3.1.0" "0.3.1" = Return true) /\
  (version_ge 4300 "0.3.1" "0.3.1.0" = Return true /\
   version_ge 4300 "0.3.1.0" "0.3.1" = Return true <->
   pad 4 [0; 3; 1] = pad 4 [0; 3; 1; 0]).
Proof.
  apply (version_ge_total 4300 "0.3.1" "0.3.1.0" [0; 3; 1] [0; 3; 1; 0]);
    reflexivity.
Defined.

(** C10. A version string whose part before the first ['+'] ends in a
    bare development marker makes [version_ge] raise [ValueError], in
    either argument position: normalisation leaves an empty last
    segment. *)
Theorem version_ge_bare_marker (lim : nat) (v other : string) :
  endswith "dev" (before_plus v) ->
  version_ge lim v other = Raise ValueError /\
  version_ge lim other v = Raise ValueError.
Proof.
  intros H. apply segments_bare_marker in H.
  assert (Hv : parsed lim v = Raise ValueError)
    by (apply comprehension_py_int_empty, H).
  rewrite !version_ge_parsed, Hv. split; [reflexivity|].
  unfold parsed.
  destruct (comprehension_py_int_cases lim (segments other))
    as [(l & -> & _) | [-> _]]; reflexivity.
Qed.

Lemma version_ge_bare_marker_witness :
  (version_ge 4300 "0.3.1.dev" "0.3.1" = Raise ValueError /\
   version_ge 4300 "0.3.1" "0.3.1.dev" = Raise ValueError) /\
  (version_ge 4300 "0.3.1dev+g83" "0.3.1" = Raise ValueError /\
   version_ge 4300 "0.3.1" "0.3.1dev+g83" = Raise ValueError).
Proof.
  split.
  - apply (version_ge_bare_marker 4300 "0.3.1.dev" "0.3.1").
    exists "0.3.1."%string. reflexivity.
  - apply (version_ge_bare_marker 4300 "0.3.1dev+g83" "0.3.1").
    exists "0.3.1"%string. reflexivity.
Defined.

(** ** The properties of [check_package_version] *)

(** The five keys of the returned dict. *)
Lemma inspection_dom (package : string) (ver at_least : object)
    (min_version : option string) :
  dom (<["at_least_min_version" := at_least]>
       (<["min_version" := of_optional min_version]>
        (<["version" := ver]>
         (<["package" := PyStr package]>
          (<["language" := PyStr "python"]> (∅ : gmap string object))))))
  = ({["language"; "package"; "version"; "min_version";
       "at_least_min_version"]} : gset string).
Proof. rewrite !dom_insert_L, dom_empty_L. set_solver. Qed.

(** The outcome of the [try] statement decides the whole call. *)
Lemma check_package_version_caught (lim : nat) (env : py_env)
    (package : string) (min_version : option string) (e : exn) :
  is_ImportError e = true ->
  import_module env package = Raise e \/
  (import_module env package = Return tt /\ version env package = Raise e) ->
  check_package_version lim env package min_version =
    Return (<["at_least_min_version" := PyNone]>
            (<["min_version" := of_optional min_version]>
             (<["version" := PyNone]>
              (<["package" := PyStr package]>
               (<["language" := PyStr "python"]> ∅))))).
Proof.
  intros He [Hi | [Hi Hv]]; unfold check_package_version;
    rewrite Hi; simpl; [|rewrite Hv; simpl]; rewrite He; reflexivity.
Qed.

(** An exception outside the [ImportError] family raised by the import
    is not caught: it leaves the call. *)
Lemma check_package_version_uncaught (lim : nat) (env : py_env)
    (package : string) (min_version : option string) (e : exn) :
  is_ImportError e = false ->
  import_module env package = Raise e ->
  check_package_version lim env package min_version = Raise e.
Proof.
  intros He Hi. unfold check_package_version. rewrite Hi. simpl.
  rewrite He. reflexivity.
Qed.

(** Without a minimum version the satisfaction flag of a returned dict
    is always indeterminate. *)
Lemma check_package_version_no_minimum (lim : nat) (env : py_env)
    (package : string) (r : gmap string object) :
  check_package_version lim env package None = Return r ->
  r !! "at_least_min_version" = Some PyNone.
Proof.
  unfold check_package_version.
  destruct (import_module env package) as [[]|e]; simpl.
  - destruct (version env package) as [ver|e]; simpl.
    + intros [= <-]. reflexivity.
    + destruct (is_ImportError e); simpl; [|discriminate].
      intros [= <-]. reflexivity.
  - destruct (is_ImportError e); simpl; [|discriminate].
    intros [= <-]. reflexivity.
Qed.

(** C5, as the code has it. When the import of the package fails with
    [ImportError] or one of its subclasses (the failures the [except]
    clause names), the call returns normally: the version is absent,
    the satisfaction flag is indeterminate, and the package and the
    minimum version are the arguments. *)
Theorem check_package_version_import_failure (lim : nat) (env : py_env)
    (package : string) (min_version : option string) (e : exn) :
  is_ImportError e = true ->
  import_module env package = Raise e ->
  exists r,
    check_package_version lim env package min_version = Return r /\
    r !! "version" = Some PyNone /\
    r !! "at_least_min_version" = Some PyNone /\
    r !! "package" = Some (PyStr package) /\
    r !! "min_version" = Some (of_optional min_version).
Proof.
  intros He Hi. eexists. split.
  - apply (check_package_version_caught lim env package min_version e He).
    left. exact Hi.
  - repeat split; reflexivity.
Qed.

Lemma check_package_version_import_failure_witness :
  exists r,
    check_package_version 4300
      {| import_module := fun _ => Raise ModuleNotFoundError;
         version := fun _ => Raise PackageNotFoundError |}
      "no_such_package" (Some "1.0"%string) = Return r /\
    r !! "version" = Some PyNone /\
    r !! "at_least_min_version" = Some PyNone /\
    r !! "package" = Some (PyStr "no_such_package") /\
    r !! "min_version" = Some (of_optional (Some "1.0"%string)).
Proof.
  apply (check_package_version_import_failure 4300 _ _ _ ModuleNotFoundError);
    reflexivity.
Defined.

(** C5 does not hold for every failing import: an import that fails
    outside the [ImportError] family (the empty module name makes
    [import_module] raise [ValueError]) is not swallowed, and the call
    returns no dict. *)
Lemma check_package_version_import_failure_counterexample :
  import_module
    {| import_module := fun _ => Raise ValueError;
       version := fun _ => Raise PackageNotFoundError |} "" = Raise ValueError /\
  check_package_version 4300
    {| import_module := fun _ => Raise ValueError;
       version := fun _ => Raise PackageNotFoundError |}
    "" (Some "1.0"%string) = Raise ValueError /\
  ~ (exists r,
       check_package_version 4300
         {| import_module := fun _ => Raise ValueError;
            version := fun _ => Raise PackageNotFoundError |}
         "" (Some "1.0"%string) = Return r).
Proof.
  split; [reflexivity|]. split; [reflexivity|].
  intros [r Hr]. discriminate Hr.
Qed.

(** C6, as the code has it. When the package imports and the metadata
    lookup returns its installed version, an absent minimum version
    gives an indeterminate satisfaction flag next to the installed
    version; a given minimum version gives the flag [version_ge]
    returns for the installed version and the minimum, and the
    exception of [version_ge] when it raises. *)
Theorem check_package_version_found (lim : nat) (env : py_env)
    (package ver : string) :
  import_module env package = Return tt ->
  version env package = Return ver ->
  (exists r,
     check_package_version lim env package None = Return r /\
     r !! "at_least_min_version" = Some PyNone /\
     r !! "version" = Some (PyStr ver)) /\
  (forall min_version b,
     version_ge lim ver min_version = Return b ->
     exists r,
       check_package_version lim env package (Some min_version) = Return r /\
       r !! "at_least_min_version" = Some (PyBool b) /\
       r !! "version" = Some (PyStr ver)) /\
  (forall min_version e,
     version_ge lim ver min_version = Raise e ->
     check_package_version lim env package (Some min_version) = Raise e).
Proof.
  intros Hi Hv. unfold check_package_version. rewrite Hi, Hv. simpl.
  split; [|split].
  - eexists. split; [reflexivity|]. split; reflexivity.
  - intros m b ->. simpl. eexists. split; [reflexivity|].
    split; reflexivity.
  - intros m e He. rewrite He. simpl.
    rewrite (version_ge_raise_ValueError lim ver m e He). reflexivity.
Qed.

(** C6 does not hold for every package that imports: when the metadata
    lookup then fails (a module without a distribution of its name),
    the returned dict carries no installed version and, with a minimum
    version given, no boolean flag. *)
Lemma check_package_version_found_counterexample :
  import_module
    {| import_module := fun _ => Return tt;
       version := fun _ => Raise PackageNotFoundError |} "os" = Return tt /\
  exists r,
    check_package_version 4300
      {| import_module := fun _ => Return tt;
         version := fun _ => Raise PackageNotFoundError |}
      "os" (Some "1.0"%string) = Return r /\
    r !! "version" = Some PyNone /\
    r !! "at_least_min_version" = Some PyNone /\
    (forall ver, r !! "version" <> Some (PyStr ver)) /\
    (forall b, r !! "at_least_min_version" <> Some (PyBool b)).
Proof.
  split; [reflexivity|]. eexists. split; [reflexivity|].
  split; [reflexivity|]. split; [reflexivity|].
  split.
  - intros ver H.
    assert (Hl : Some PyNone = Some (PyStr ver)) by exact H. discriminate.
  - intros b H.
    assert (Hl : Some PyNone = Some (PyBool b)) by exact H. discriminate.
Qed.

Lemma check_package_version_found_witness :
  (exists r,
     check_package_version 4300
       {| import_module := fun _ => Return tt;
          version := fun _ => Return "0.3.1.dev16+g83"%string |}
       "shiny" None = Return r /\
     r !! "at_least_min_version" = Some PyNone /\
     r !! "version" = Some (PyStr "0.3.1.dev16+g83")) /\
  (forall min_version b,
     version_ge 4300 "0.3.1.dev16+g83" min_version = Return b ->
     exists r,
       check_package_version 4300
         {| import_module := fun _ => Return tt;
            version := fun _ => Return "0.3.1.dev16+g83"%string |}
         "shiny" (Some min_version) = Return r /\
       r !! "at_least_min_version" = Some (PyBool b) /\
       r !! "version" = Some (PyStr "0.3.1.dev16+g83")) /\
  (forall min_version e,
     version_ge 4300 "0.3.1.dev16+g83" min_version = Raise e ->
     check_package_version 4300
       {| import_module := fun _ => Return tt;
          version := fun _ => Return "0.3.1.dev16+g83"%string |}
       "shiny" (Some min_version) = Raise e).
Proof.
  apply (check_package_version_found 4300
           {| import_module := fun _ => Return tt;
              version := fun _ => Return "0.3.1.dev16+g83"%string |}
           "shiny" "0.3.1.dev16+g83"); reflexivity.
Defined.

(** C8. Every dict the call returns has exactly the five keys
    [language], [package], [version], [min_version] and
    [at_least_min_version]; [language] is ["python"], and [package] and
    [min_version] are the arguments. *)
Theorem check_package_version_shape (lim : nat) (env : py_env)
    (package : string) (min_version : option string)
    (r : gmap string object) :
  check_package_version lim env package min_version = Return r ->
  dom r = ({["language"; "package"; "version"; "min_version";
             "at_least_min_version"]} : gset string) /\
  r !! "language" = Some (PyStr "python") /\
  r !! "package" = Some (PyStr package) /\
  r !! "min_version" = Some (of_optional min_version).
Proof.
  unfold check_package_version.
  destruct (try_except_ImportError _ _) as [[ver at_least]|e]; simpl;
    [|discriminate].
  intros [= <-]. split; [apply inspection_dom|].
  repeat split; reflexivity.
Qed.

Lemma check_package_version_shape_witness :
  exists r,
    check_package_version 4300
      {| import_module := fun _ => Return tt;
         version := fun _ => Return "1.2.0"%string |}
      "shiny" (Some "1.0"%string) = Return r /\
    dom r = ({["language"; "package"; "version"; "min_version";
               "at_least_min_version"]} : gset string) /\
    r !! "language" = Some (PyStr "python") /\
    r !! "package" = Some (PyStr "shiny") /\
    r !! "min_version" = Some (of_optional (Some "1.0"%string)).
Proof.
  eexists. split; [reflexivity|].
  apply (check_package_version_shape 4300
           {| import_module := fun _ => Return tt;
              version := fun _ => Return "1.2.0"%string |}
           "shiny" (Some "1.0"%string)).
  reflexivity.
Defined.

(** * Further properties of the code *)

(** ** The order of [version_ge] *)

Lemma combine_app_same {A B : Type} (l1 r1 : list A) (l2 r2 : list B) :
  length l1 = length l2 ->
  combine (l1 ++ r1) (l2 ++ r2) = combine l1 l2 ++ combine r1 r2.
Proof.
  revert l2. induction l1 as [|x l1 IH]; intros [|y l2] Hlen;
    simpl in *; try discriminate; [reflexivity|].
  rewrite IH by lia. reflexivity.
Qed.

(** Pairs of zeros after the compared pairs do not change the outcome
    of the loop. *)
Lemma compare_parts_zeros (pairs : list (Z * Z)) (k : nat) :
  compare_parts (pairs ++ combine (List.repeat 0 k) (List.repeat 0 k))
  = compare_parts pairs.
Proof.
  induction pairs as [|[x y] pairs IH]; simpl.
  - apply compare_parts_refl.
  - destruct (x >? y); [reflexivity|]. destruct (x <? y); [reflexivity|].
    exact IH.
Qed.

Lemma pad_more (n m : nat) (l : list Z) :
  (length l <= m)%nat -> (m <= n)%nat ->
  pad n l = pad m l ++ List.repeat 0 (n - m).
Proof.
  intros H1 H2. unfold pad. rewrite <- app_assoc, <- repeat_app.
  do 2 f_equal. lia.
Qed.

(** The comparison does not depend on how far both sequences are
    padded. *)
Lemma compare_pad_any (l1 l2 : list Z) (n : nat) :
  (Nat.max (length l1) (length l2) <= n)%nat ->
  compare_parts (combine (pad n l1) (pad n l2))
  = compare_parts
      (combine (pad (Nat.max (length l1) (length l2)) l1)
               (pad (Nat.max (length l1) (length l2)) l2)).
Proof.
  intros Hn. set (m := Nat.max (length l1) (length l2)) in *.
  rewrite (pad_more n m l1), (pad_more n m l2) by lia.
  rewrite combine_app_same by (rewrite !pad_length; lia).
  apply compare_parts_zeros.
Qed.

Lemma compare_parts_trans (l1 l2 l3 : list Z) :
  length l1 = length l2 -> length l2 = length l3 ->
  compare_parts (combine l1 l2) = true ->
  compare_parts (combine l2 l3) = true ->
  compare_parts (combine l1 l3) = true.
Proof.
  revert l2 l3. induction l1 as [|x l1 IH]; intros [|y l2] [|z l3] H12 H23;
    simpl in *; try discriminate; [reflexivity|].
  destruct (x >? y) eqn:Exy; destruct (x <? y) eqn:Exy';
    destruct (y >? z) eqn:Eyz; destruct (y <? z) eqn:Eyz';
    destruct (x >? z) eqn:Exz; destruct (x <? z) eqn:Exz';
    try lia; try discriminate; try reflexivity.
  apply IH; lia.
Qed.

Lemma version_ge_of_parsed (lim : nat) (a b : string) (pa pb : list Z) :
  parsed lim a = Return pa -> parsed lim b = Return pb ->
  version_ge lim a b =
    Return (compare_parts
              (combine (pad (Nat.max (length pa) (length pb)) pa)
                       (pad (Nat.max (length pa) (length pb)) pb))).
Proof. intros Ha Hb. rewrite version_ge_parsed, Ha, Hb. reflexivity. Qed.

(** X1. A version string that parses is greater-or-equal to itself. *)
Theorem version_ge_refl (lim : nat) (v : string) (p : list Z) :
  parsed lim v = Return p -> version_ge lim v v = Return true.
Proof.
  intros Hp. rewrite (version_ge_of_parsed lim v v p p Hp Hp).
  rewrite compare_parts_refl. reflexivity.
Qed.

Lemma version_ge_refl_witness :
  version_ge 4300 "0.3.1.dev16+g83" "0.3.1.dev16+g83" = Return true.
Proof.
  apply (version_ge_refl 4300 "0.3.1.dev16+g83" [0; 3; 1; 16]). reflexivity.
Defined.

(** X2. The order is transitive on the version strings that parse, also
    when the three have different numbers of components. *)
Theorem version_ge_trans (lim : nat) (a b c : string) (pa pb pc : list Z) :
  parsed lim a = Return pa -> parsed lim b = Return pb ->
  parsed lim c = Return pc ->
  version_ge lim a b = Return true ->
  version_ge lim b c = Return true ->
  version_ge lim a c = Return true.
Proof.
  intros Ha Hb Hc.
  rewrite (version_ge_of_parsed lim a b pa pb Ha Hb),
          (version_ge_of_parsed lim b c pb pc Hb Hc),
          (version_ge_of_parsed lim a c pa pc Ha Hc).
  set (n := Nat.max (length pa) (Nat.max (length pb) (length pc))).
  rewrite <- (compare_pad_any pa pb n), <- (compare_pad_any pb pc n),
          <- (compare_pad_any pa pc n) by lia.
  intros [= H1] [= H2]. f_equal.
  apply (compare_parts_trans _ (pad n pb)); try assumption;
    rewrite !pad_length; lia.
Qed.

Lemma version_ge_trans_witness :
  version_ge 4300 "1.2.0.1" "1.2" = Return true.
Proof.
  apply (version_ge_trans 4300 "1.2.0.1" "1.2.0" "1.2"
           [1; 2; 0; 1] [1; 2; 0] [1; 2]); reflexivity.
Defined.

(** X3. Trailing zero components are insignificant: a version whose
    parsed sequence is that of another followed by zeros gives the same
    outcome against any third version, in either position. *)
Theorem version_ge_trailing_zeros (lim : nat) (a a' b : string)
    (pa : list Z) (k : nat) :
  parsed lim a = Return pa ->
  parsed lim a' = Return (pa ++ List.repeat 0 k) ->
  version_ge lim a' b = version_ge lim a b /\
  version_ge lim b a' = version_ge lim b a.
Proof.
  intros Ha Ha'. rewrite !version_ge_parsed, Ha, Ha'. simpl.
  assert (Hpad : forall n, (length pa + k <= n)%nat ->
                           pad n (pa ++ List.repeat 0 k) = pad n pa).
  { intros n Hn. unfold pad.
    rewrite <- app_assoc, <- repeat_app, length_app, repeat_length.
    do 2 f_equal. lia. }
  destruct (parsed lim b) as [pb|e]; simpl; [|split; reflexivity].
  rewrite length_app, repeat_length.
  set (n := Nat.max (length pa + k) (length pb)).
  replace (Nat.max (length pb) (length pa + k)) with n by lia.
  rewrite !Hpad by lia.
  rewrite (compare_pad_any pa pb n), (compare_pad_any pb pa n) by lia.
  split; reflexivity.
Qed.

Lemma version_ge_trailing_zeros_witness :
  version_ge 4300 "1.2.0.0" "1.2.dev3" = version_ge 4300 "1.2" "1.2.dev3" /\
  version_ge 4300 "1.2.dev3" "1.2.0.0" = version_ge 4300 "1.2.dev3" "1.2".
Proof.
  apply (version_ge_trailing_zeros 4300 "1.2" "1.2.0.0" "1.2.dev3" [1; 2] 2);
    reflexivity.
Defined.

Lemma version_ge_dev_release_witness :
  version_ge 4300 "0.3.1.dev16" "0.3.1" = Return true /\
  version_ge 4300 "0.3.1" "0.3.1.dev16" = Return (16 =? 0).
Proof.
  apply (version_ge_dev_release 4300 "0.3.1" "16" [0; 3; 1] 16);
    try reflexivity.
  split; [discriminate | reflexivity].
Defined.

(** ** Malformed version strings *)

Lemma version_ge_unparsed (lim : nat) (v other : string) :
  In EmptyString (segments v) ->
  version_ge lim v other = Raise ValueError /\
  version_ge lim other v = Raise ValueError.
Proof.
  intros H.
  assert (Hv : parsed lim v = Raise ValueError)
    by (apply comprehension_py_int_empty, H).
  rewrite !version_ge_parsed, Hv. split; [reflexivity|].
  unfold parsed.
  destruct (comprehension_py_int_cases lim (segments other))
    as [(l & -> & _) | [-> _]]; reflexivity.
Qed.

(** X4. An argument with nothing before its first ['+'] (the empty
    string, or a bare local-build suffix) makes [version_ge] raise
    [ValueError], in either position. *)
Theorem version_ge_empty (lim : nat) (v other : string) :
  before_plus v = EmptyString ->
  version_ge lim v other = Raise ValueError /\
  version_ge lim other v = Raise ValueError.
Proof.
  intros H. apply version_ge_unparsed. unfold segments. rewrite H.
  left. reflexivity.
Qed.

Lemma version_ge_empty_witness :
  (version_ge 4300 "" "1.0" = Raise ValueError /\
   version_ge 4300 "1.0" "" = Raise ValueError) /\
  (version_ge 4300 "+g83" "1.0" = Raise ValueError /\
   version_ge 4300 "1.0" "+g83" = Raise ValueError).
Proof.
  split.
  - apply (version_ge_empty 4300 "" "1.0"). reflexivity.
  - apply (version_ge_empty 4300 "+g83" "1.0"). reflexivity.
Defined.

Lemma replace_dotdev_dot (s : string) (k : nat) :
  (k <= String.length s)%nat ->
  endswith "." (replace_from ".dev" "." k (s +:+ ".")).
Proof.
  revert k. induction s as [|c s IH]; intros k Hk.
  - simpl in Hk. replace k with 0%nat by lia. exists EmptyString. reflexivity.
  - rewrite (append_cons c s). destruct k as [|k].
    + cbn [replace_from].
      destruct (startswith ".dev" (String c (s +:+ "."))) eqn:E.
      * apply endswith_append.
        destruct s as [|x [|y [|z s]]].
        -- simpl in E. rewrite ?andb_false_r in E. discriminate.
        -- simpl in E. rewrite ?andb_false_r in E. discriminate.
        -- simpl in E. rewrite ?andb_false_r in E. discriminate.
        -- apply IH. simpl. lia.
      * apply endswith_cons, IH. lia.
    + cbn [replace_from]. apply IH. simpl in Hk. lia.
Qed.

Lemma normalize_leading_dot (s : string) :
  startswith "." s = true -> startswith "." (normalize s) = true.
Proof.
  destruct s as [|c s]; [discriminate|]. cbn [startswith].
  rewrite andb_true_r. intros Hc. apply Ascii.eqb_eq in Hc. subst c.
  unfold normalize, replace at 2. cbn [replace_from].
  destruct (startswith ".dev" (String "." s)).
  - destruct (replace_from ".dev" "." (String.length ".dev" - 1) s);
      reflexivity.
  - reflexivity.
Qed.

Lemma split_leading_sep (sep : ascii) (s : string) :
  startswith (String sep EmptyString) s = true -> In EmptyString (split sep s).
Proof.
  destruct s as [|c s]; [discriminate|]. cbn [startswith split].
  rewrite andb_true_r. intros Hc. rewrite Ascii.eqb_sym, Hc.
  left. reflexivity.
Qed.

(** X5. A version whose part before the first ['+'] starts or ends with
    a dot has an empty component, and [version_ge] raises [ValueError]
    on it, in either position. *)
Theorem version_ge_outer_dot (lim : nat) (v other : string) :
  startswith "." (before_plus v) = true \/ endswith "." (before_plus v) ->
  version_ge lim v other = Raise ValueError /\
  version_ge lim other v = Raise ValueError.
Proof.
  intros H. apply version_ge_unparsed. unfold segments.
  destruct H as [H | [p Hp]].
  - apply split_leading_sep, normalize_leading_dot, H.
  - rewrite Hp. unfold normalize, replace.
    destruct (replace_dotdev_dot p 0) as [r ->]; [lia|].
    destruct (replace_dev_dot r 0) as [r' ->]; [lia|].
    rewrite split_trailing_sep. apply in_or_app. right. left. reflexivity.
Qed.

Lemma version_ge_outer_dot_witness :
  (version_ge 4300 ".5" "0.5" = Raise ValueError /\
   version_ge 4300 "0.5" ".5" = Raise ValueError) /\
  (version_ge 4300 "1.2.+g83" "1.2" = Raise ValueError /\
   version_ge 4300 "1.2" "1.2.+g83" = Raise ValueError).
Proof.
  split.
  - apply (version_ge_outer_dot 4300 ".5" "0.5"). left. reflexivity.
  - apply (version_ge_outer_dot 4300 "1.2.+g83" "1.2"). right.
    exists "1.2"%string. reflexivity.
Defined.

(** ** Development markers of well-formed versions *)

(** In front of a string without ['d'], the marker ["dev"] is the first
    match of the second replacement. *)
Lemma replace_dev_after (base rest : string) :
  absent "d" base = true ->
  replace "dev" "." (base +:+ "dev" +:+ rest)
  = base +:+ "." +:+ replace "dev" "." rest.
Proof.
  induction base as [|c base IH]; intros Ha.
  - rewrite !append_empty_l. apply (replace_match "dev"). discriminate.
  - simpl in Ha. apply andb_prop in Ha as [Hc Ha].
    rewrite !(append_cons c base), replace_copy;
      [rewrite (IH Ha); reflexivity|].
    cbn [startswith]. apply negb_true_iff in Hc.
    rewrite Ascii.eqb_sym, Hc. reflexivity.
Qed.

(** Without a dot in front of it, the marker ["dev"] is not touched by
    the first replacement. *)
Lemma replace_dotdev_undotted (base rest : string) :
  absent "d" base = true -> ~ endswith "." base ->
  absent "." rest = true ->
  replace ".dev" "." (base +:+ "dev" +:+ rest) = base +:+ "dev" +:+ rest.
Proof.
  induction base as [|c base IH]; intros Ha Hend Hrest.
  - rewrite append_empty_l. apply (replace_absent "."); [simpl; auto|].
    exact Hrest.
  - simpl in Ha. apply andb_prop in Ha as [_ Ha].
    rewrite !(append_cons c base), replace_copy.
    + rewrite IH; auto. intros H. apply Hend, endswith_cons, H.
    + cbn [startswith]. destruct base as [|x base].
      * destruct (Ascii.eqb "." c) eqn:E; [|reflexivity].
        apply Ascii.eqb_eq in E. subst c. exfalso. apply Hend.
        exists EmptyString. reflexivity.
      * rewrite (append_cons x base). cbn [startswith].
        simpl in Ha. apply andb_prop in Ha as [Hx _].
        apply negb_true_iff in Hx. rewrite (Ascii.eqb_sym "d" x), Hx.
        apply andb_false_r.
Qed.

(** The segments of [baseDEVn] written without the dot. *)
Lemma segments_dev_undotted (base num : string) :
  release_string base -> ~ endswith "." base -> digit_string num ->
  segments (base +:+ "dev" +:+ num) = split "." base ++ [num].
Proof.
  intros Hb Hend [_ Hn].
  pose proof (release_char_absent "d" base eq_refl eq_refl Hb) as Hbd.
  pose proof (release_char_absent "+" base eq_refl eq_refl Hb) as Hbp.
  pose proof (digit_char_absent "d" num eq_refl Hn) as Hnd.
  pose proof (digit_char_absent "+" num eq_refl Hn) as Hnp.
  pose proof (digit_char_absent "." num eq_refl Hn) as Hndot.
  unfold segments, normalize.
  rewrite before_plus_absent
    by (unfold absent; rewrite !every_append; fold (absent "+" base);
        fold (absent "+" num); rewrite Hbp, Hnp; reflexivity).
  rewrite (replace_dotdev_undotted base num Hbd Hend Hndot).
  rewrite (replace_dev_after base num Hbd).
  rewrite (replace_absent "d" "dev" "." num) by (simpl; auto).
  change (base +:+ "." +:+ num) with (base +:+ String "." num).
  rewrite split_append_sep, (split_absent "." num Hndot). reflexivity.
Qed.

(** X6. The two spellings of the marker are interchangeable: for a
    release [base] that does not end with a dot and a number [n],
    [base ++ "dev" ++ n] and [base ++ ".dev" ++ n] give the same outcome
    against any other version, in either position. *)
Theorem version_ge_marker_spelling (lim : nat) (base num other : string) :
  release_string base -> ~ endswith "." base -> digit_string num ->
  version_ge lim (base +:+ "dev" +:+ num) other
  = version_ge lim (base +:+ ".dev" +:+ num) other /\
  version_ge lim other (base +:+ "dev" +:+ num)
  = version_ge lim other (base +:+ ".dev" +:+ num).
Proof.
  intros Hb Hend Hn.
  rewrite !version_ge_parsed. unfold parsed.
  rewrite (segments_dev_undotted base num Hb Hend Hn).
  destruct (segments_dev base num Hb Hn) as [_ ->].
  split; reflexivity.
Qed.

Lemma version_ge_marker_spelling_witness :
  version_ge 4300 "0.3.1dev16" "0.3.1"
  = version_ge 4300 "0.3.1.dev16" "0.3.1" /\
  version_ge 4300 "0.3.1" "0.3.1dev16"
  = version_ge 4300 "0.3.1" "0.3.1.dev16".
Proof.
  apply (version_ge_marker_spelling 4300 "0.3.1" "16" "0.3.1").
  - reflexivity.
  - intros [r Hr]. destruct r as [|a [|b [|c [|d [|e r]]]]]; try discriminate.
    destruct r; discriminate.
  - split; [discriminate | reflexivity].
Defined.

(** X7. Two development pre-releases of the same release are ordered by
    their numbers: [base.devN >= base.devM] exactly when [N >= M]. *)
Theorem version_ge_dev_numbers (lim : nat) (base num1 num2 : string)
    (pb : list Z) (d1 d2 : Z) :
  release_string base -> digit_string num1 -> digit_string num2 ->
  parsed lim base = Return pb ->
  py_int lim num1 = Return d1 -> py_int lim num2 = Return d2 ->
  version_ge lim (base +:+ ".dev" +:+ num1) (base +:+ ".dev" +:+ num2)
  = Return (d2 <=? d1).
Proof.
  intros Hb Hn1 Hn2 Hpb Hd1 Hd2.
  destruct (segments_dev base num1 Hb Hn1) as [Hs Hs1].
  destruct (segments_dev base num2 Hb Hn2) as [_ Hs2].
  unfold parsed in Hpb. rewrite Hs in Hpb.
  rewrite version_ge_parsed. unfold parsed. rewrite Hs1, Hs2.
  rewrite (comprehension_app _ _ [num1] pb [d1] Hpb)
    by (simpl; rewrite Hd1; reflexivity).
  rewrite (comprehension_app _ _ [num2] pb [d2] Hpb)
    by (simpl; rewrite Hd2; reflexivity).
  simpl. rewrite !length_app. simpl. rewrite Nat.max_id.
  unfold pad. rewrite !length_app. simpl. rewrite Nat.sub_diag. simpl.
  rewrite !app_nil_r, compare_parts_last. reflexivity.
Qed.

Lemma version_ge_dev_numbers_witness :
  version_ge 4300 "0.3.1.dev15" "0.3.1.dev16" = Return (16 <=? 15).
Proof.
  apply (version_ge_dev_numbers 4300 "0.3.1" "15" "16" [0; 3; 1] 15 16);
    try reflexivity; split; solve [discriminate | reflexivity].
Defined.

(** ** Outcomes of [check_package_version] *)

(** X8. The call raises exactly in three cases: the import raises an
    exception outside the [ImportError] family, the metadata lookup
    does, or [version_ge] raises on the installed version and the given
    minimum version. *)
Theorem check_package_version_raises_iff (lim : nat) (env : py_env)
    (package : string) (min_version : option string) (e : exn) :
  check_package_version lim env package min_version = Raise e <->
  (import_module env package = Raise e /\ is_ImportError e = false) \/
  (import_module env package = Return tt /\
   version env package = Raise e /\ is_ImportError e = false) \/
  (exists ver m,
     import_module env package = Return tt /\
     version env package = Return ver /\
     min_version = Some m /\
     version_ge lim ver m = Raise e).
Proof.
  unfold check_package_version.
  destruct (import_module env package) as [[]|e1] eqn:Hi; simpl.
  - destruct (version env package) as [ver|e2] eqn:Hv; simpl.
    + destruct min_version as [m|]; simpl.
      * destruct (version_ge lim ver m) as [b|e3] eqn:Hge; simpl.
        -- split; [discriminate|].
           intros [[H _] | [(_ & H & _) | (ver' & m' & _ & Hv' & Hm & H)]];
             try discriminate.
           injection Hv' as <-. injection Hm as <-. congruence.
        -- pose proof (version_ge_raise_ValueError lim ver m e3 Hge) as ->.
           simpl. split.
           ++ intros [= <-]. right. right. exists ver, m. auto.
           ++ intros [[H _] | [(_ & H & _) | (ver' & m' & _ & Hv' & Hm & H)]];
                try discriminate.
              injection Hv' as <-. injection Hm as <-. congruence.
      * split; [discriminate|].
        intros [[H _] | [(_ & H & _) | (ver' & m' & _ & _ & Hm & _)]];
          discriminate.
    + destruct (is_ImportError e2) eqn:He; simpl.
      * split; [discriminate|].
        intros [[H _] | [(_ & H & He') | (ver' & m' & _ & H & _)]];
          try discriminate.
        injection H as <-. congruence.
      * split.
        -- intros [= <-]. right. left. auto.
        -- intros [[H _] | [(_ & H & _) | (ver' & m' & _ & H & _)]];
             try discriminate.
           injection H as <-. reflexivity.
  - destruct (is_ImportError e1) eqn:He; simpl.
    + split; [discriminate|].
      intros [[H He'] | [(H & _) | (ver' & m' & H & _)]]; try discriminate.
      injection H as <-. congruence.
    + split.
      * intros [= <-]. left. auto.
      * intros [[H _] | [(H & _) | (ver' & m' & H & _)]]; try discriminate.
        injection H as <-. reflexivity.
Qed.

(** X9. No exception of the [ImportError] family ever leaves the call,
    whatever the import, the metadata lookup and the arguments do. *)
Theorem check_package_version_no_ImportError (lim : nat) (env : py_env)
    (package : string) (min_version : option string) (e : exn) :
  check_package_version lim env package min_version = Raise e ->
  is_ImportError e = false.
Proof.
  unfold check_package_version.
  destruct (import_module env package) as [[]|e1]; simpl.
  - destruct (version env package) as [ver|e2]; simpl.
    + destruct min_version as [m|]; simpl; [|discriminate].
      destruct (version_ge lim ver m) as [b|e3] eqn:Hge; simpl;
        [discriminate|].
      rewrite (version_ge_raise_ValueError lim ver m e3 Hge). simpl.
      intros [= <-]. reflexivity.
    + destruct (is_ImportError e2) eqn:He; simpl; [discriminate|].
      intros [= <-]. exact He.
  - destruct (is_ImportError e1) eqn:He; simpl; [discriminate|].
    intros [= <-]. exact He.
Qed.

Lemma check_package_version_no_ImportError_witness :
  is_ImportError ValueError = false.
Proof.
  apply (check_package_version_no_ImportError 4300
           {| import_module := fun _ => Return tt;
              version := fun _ => Return "1.2.dev"%string |}
           "shiny" (Some "1.0"%string) ValueError).
  reflexivity.
Defined.

(** X10. A boolean satisfaction flag is always the comparison of the
    reported version with the requested minimum: it appears only when
    both are strings, and then it is what [version_ge] returns on them.
    An absent version always comes with an indeterminate flag. *)
Theorem check_package_version_flag (lim : nat) (env : py_env)
    (package : string) (min_version : option string)
    (r : gmap string object) :
  check_package_version lim env package min_version = Return r ->
  (forall b, r !! "at_least_min_version" = Some (PyBool b) ->
     exists ver m,
       r !! "version" = Some (PyStr ver) /\
       version env package = Return ver /\
       min_version = Some m /\
       version_ge lim ver m = Return b) /\
  (r !! "version" = Some PyNone ->
   r !! "at_least_min_version" = Some PyNone).
Proof.
  unfold check_package_version.
  destruct (import_module env package) as [[]|e1]; simpl.
  - destruct (version env package) as [ver|e2]; simpl.
    + destruct min_version as [m|]; simpl.
      * destruct (version_ge lim ver m) as [b|e3] eqn:Hge; simpl.
        -- intros [= <-]. split.
           ++ intros b' Hb. exists ver, m.
              assert (Hl : Some (PyBool b) = Some (PyBool b')) by exact Hb.
              injection Hl as <-. auto.
           ++ intros H. exfalso.
              assert (Hl : Some (PyStr ver) = Some PyNone) by exact H.
              discriminate.
        -- pose proof (version_ge_raise_ValueError lim ver m e3 Hge) as ->.
           discriminate.
      * intros [= <-]. split.
        -- intros b Hb. exfalso.
           assert (Hl : Some PyNone = Some (PyBool b)) by exact Hb.
           discriminate.
        -- intros _. reflexivity.
    + destruct (is_ImportError e2); simpl; [|discriminate].
      intros [= <-]. split.
      * intros b Hb. exfalso.
        assert (Hl : Some PyNone = Some (PyBool b)) by exact Hb.
        discriminate.
      * intros _. reflexivity.
  - destruct (is_ImportError e1); simpl; [|discriminate].
    intros [= <-]. split.
    + intros b Hb. exfalso.
      assert (Hl : Some PyNone = Some (PyBool b)) by exact Hb.
      discriminate.
    + intros _. reflexivity.
Qed.

(** X11. A package that imports but whose installed version cannot be
    looked up (the lookup raises in the [ImportError] family) is
    reported like a package that cannot be imported: absent version,
    indeterminate flag, arguments echoed. *)
Theorem check_package_version_no_metadata (lim : nat) (env : py_env)
    (package : string) (min_version : option string) (e : exn) :
  is_ImportError e = true ->
  import_module env package = Return tt ->
  version env package = Raise e ->
  exists r,
    check_package_version lim env package min_version = Return r /\
    r !! "version" = Some PyNone /\
    r !! "at_least_min_version" = Some PyNone /\
    r !! "package" = Some (PyStr package) /\
    r !! "min_version" = Some (of_optional min_version).
Proof.
  intros He Hi Hv. eexists. split.
  - apply (check_package_version_caught lim env package min_version e He).
    right. split; assumption.
  - repeat split; reflexivity.
Qed.

Lemma check_package_version_no_metadata_witness :
  exists r,
    check_package_version 4300
      {| import_module := fun _ => Return tt;
         version := fun _ => Raise PackageNotFoundError |}
      "os" (Some "1.0"%string) = Return r /\
    r !! "version" = Some PyNone /\
    r !! "at_least_min_version" = Some PyNone /\
    r !! "package" = Some (PyStr "os") /\
    r !! "min_version" = Some (of_optional (Some "1.0"%string)).
Proof.
  apply (check_package_version_no_metadata 4300 _ _ _ PackageNotFoundError);
    reflexivity.
Defined.

Lemma check_package_version_flag_witness :
  exists r,
    check_package_version 4300
      {| import_module := fun _ => Return tt;
         version := fun _ => Return "1.2.0"%string |}
      "shiny" (Some "1.0"%string) = Return r /\
    (forall b, r !! "at_least_min_version" = Some (PyBool b) ->
       exists ver m,
         r !! "version" = Some (PyStr ver) /\
         Return "1.2.0"%string = Return ver /\
         Some "1.0"%string = Some m /\
         version_ge 4300 ver m = Return b) /\
    (r !! "version" = Some PyNone ->
     r !! "at_least_min_version" = Some PyNone).
Proof.
  eexists. split; [reflexivity|].
  apply (check_package_version_flag 4300
           {| import_module := fun _ => Return tt;
              version := fun _ => Return "1.2.0"%string |}
           "shiny" (Some "1.0"%string)).
  reflexivity.
Defined.

(** ** Well-formed release versions *)

Lemma digits_digit_tail (t : string) : every isdigit t = true -> digit_tail t.
Proof.
  induction t as [|c t IH]; simpl; [constructor|].
  intros [Hc Ht]%andb_prop. apply tail_digit; [|apply IH, Ht].
  unfold isdigit in Hc. unfold is_digit.
  destruct (digit_value c); [eauto | discriminate].
Qed.

Lemma count_digits_length (s : string) :
  (count_digits s <= String.length s)%nat.
Proof.
  induction s as [|c s IH]; simpl; [lia|].
  destruct (digit_value c); lia.
Qed.

(** A string of at most 640 digits is a literal [int] accepts, whatever
    the interpreter's limit. *)
Lemma digit_string_valid (lim : nat) (seg : string) :
  digit_string seg -> (String.length seg <= 640)%nat ->
  valid_int_literal lim seg.
Proof.
  intros [Hne Hd] Hlen. destruct seg as [|c t]; [contradiction|].
  simpl in Hd. apply andb_prop in Hd as [Hc Ht]. split.
  - exists EmptyString, EmptyString, c, t, EmptyString.
    rewrite !append_empty_l, append_empty_r. repeat split; auto.
    + left. reflexivity.
    + unfold isdigit in Hc. unfold is_digit.
      destruct (digit_value c); [eauto | discriminate].
    + apply digits_digit_tail, Ht.
  - unfold exceeds_limit, str_digits_check_threshold.
    pose proof (count_digits_length (String c t)) as Hcount.
    destruct (640 <? count_digits (String c t))%nat eqn:E; [|reflexivity].
    apply Nat.ltb_lt in E. lia.
Qed.

(** The characters of a string whose components are digits are digits
    and dots. *)
Lemma split_digits_release (v : string) :
  Forall (fun seg => every isdigit seg = true) (split "." v) ->
  release_string v.
Proof.
  unfold release_string. induction v as [|c v IH]; [reflexivity|].
  cbn [split every]. destruct (Ascii.eqb c ".") eqn:E.
  - intros H. apply Forall_cons_1 in H as [_ H].
    rewrite orb_true_r. apply IH, H.
  - destruct (split "." v) as [|w ws] eqn:Es.
    + exfalso. exact (split_nonempty _ _ Es).
    + intros H. apply Forall_cons_1 in H as [Hw Hws].
      simpl in Hw. apply andb_prop in Hw as [Hc Hw].
      rewrite Hc. simpl. apply IH. constructor; assumption.
Qed.

Lemma parsed_well_formed (lim : nat) (v : string) :
  Forall (fun seg => digit_string seg /\ (String.length seg <= 640)%nat)
         (split "." v) ->
  exists p, parsed lim v = Return p.
Proof.
  intros H.
  assert (Hrel : release_string v).
  { apply split_digits_release. eapply Forall_impl; [exact H|].
    intros seg [[_ Hd] _]. exact Hd. }
  pose proof (release_char_absent "d" v eq_refl eq_refl Hrel) as Hd.
  pose proof (release_char_absent "+" v eq_refl eq_refl Hrel) as Hp.
  assert (Hseg : segments v = split "." v).
  { unfold segments, normalize. rewrite (before_plus_absent v Hp).
    rewrite (replace_absent "d" ".dev" "." v), (replace_absent "d" "dev");
      auto; simpl; auto. }
  unfold parsed. rewrite Hseg.
  destruct (comprehension_py_int_cases lim (split "." v))
    as [(p & Hp' & _) | [_ Hex]]; [eauto|].
  exfalso. apply Exists_exists in Hex as (seg & Hin & Hbad).
  rewrite Forall_forall in H. destruct (H seg Hin) as [Hds Hlen].
  apply Hbad, digit_string_valid; assumption.
Qed.

(** X13. On well-formed release versions (dot-separated, non-empty
    runs of at most 640 decimal digits) [version_ge] never raises: it
    returns a boolean, whatever the interpreter's digit limit. *)
Theorem version_ge_well_formed (lim : nat) (a b : string) :
  Forall (fun seg => digit_string seg /\ (String.length seg <= 640)%nat)
         (split "." a) ->
  Forall (fun seg => digit_string seg /\ (String.length seg <= 640)%nat)
         (split "." b) ->
  exists r, version_ge lim a b = Return r.
Proof.
  intros Ha Hb.
  destruct (parsed_well_formed lim a Ha) as [pa Hpa].
  destruct (parsed_well_formed lim b Hb) as [pb Hpb].
  rewrite (version_ge_of_parsed lim a b pa pb Hpa Hpb). eauto.
Qed.

Lemma version_ge_well_formed_witness :
  exists r, version_ge 0 "10.0.2" "9.12" = Return r.
Proof.
  apply (version_ge_well_formed 0 "10.0.2" "9.12").
  - repeat constructor; simpl; solve [discriminate | lia].
  - repeat constructor; simpl; solve [discriminate | lia].
Defined.
